(** * consensus-algorithms-edu: the six consensus strategies, embedded and checked

    The Go packages [pow], [pos], [dpos], [pbft], [raft] and [paxos] are
    translated function by function.  What the code takes from its
    environment is an argument of the translated function: [now] is the
    string [time.Now().String()] returned at that call, [pick] the value
    [rand.Intn] returned, and an [order] list the order in which a [range]
    loop visited a Go map.  A Go [int] is a [Z] wrapped to 64 bits at every
    arithmetic operation of the source; a Go [string] is a [string] (a sequence
    of bytes in both languages).  A run-time panic is an outcome of its own and
    keeps the state the program had when it was raised. *)

From Stdlib Require Import ZArith Lia.
From stdpp Require Import base decidable option list numbers strings pretty gmap.

Local Open Scope Z_scope.

(** ** Go's [int] *)

Definition int_bits : Z := 64.
Definition min_int : Z := - 2 ^ (int_bits - 1).
Definition max_int : Z := 2 ^ (int_bits - 1) - 1.

(** Two's-complement wrap-around of the signed 64-bit [int]. *)
Definition wrap (z : Z) : Z :=
  (z - min_int) `mod` 2 ^ int_bits + min_int.

(** [strconv.Itoa]: the decimal digits, with a leading minus sign below zero. *)
Definition Itoa (i : Z) : string := pretty i.

(** [len] of a slice or a string, as an [int]. *)
Definition len {A} (l : list A) : Z := Z.of_nat (length l).

(** ** Outcomes of a call *)

Inductive panic : Type :=
  | IndexOutOfRange        (* s[i] with i outside 0 <= i < len(s) *)
  | SliceBoundsOutOfRange  (* s[:n] with n > len(s) *)
  | NilDereference         (* field access through a nil pointer *)
  | NilMapAssignment       (* m[k] = v on a nil map *)
  | MakeSliceLenOutOfRange (* make([]T, n) with n < 0 or n too large *)
  | IntnInvalidArgument.   (* rand.Intn(n) with n <= 0 *)

(** A call on a state [S] either returns a value in a new state, or panics in
    the state reached so far, or (for the one unbounded loop of the
    repository) is still running when the fuel of the model is used up. *)
Inductive outcome (S A : Type) : Type :=
  | Returns (a : A) (s : S)
  | Panics (e : panic) (s : S)
  | Unfinished (s : S).

Arguments Returns {S A} a s.
Arguments Panics {S A} e s.
Arguments Unfinished {S A} s.

Definition M (S A : Type) : Type := S -> outcome S A.

Definition ret {S A} (a : A) : M S A := fun s => Returns a s.

Definition throw {S A} (e : panic) : M S A := fun s => Panics e s.

Definition bind {S A B} (c : M S A) (k : A -> M S B) : M S B :=
  fun s =>
    match c s with
    | Returns a s' => k a s'
    | Panics e s' => Panics e s'
    | Unfinished s' => Unfinished s'
    end.

Notation "'let*' x ':=' c 'in' k" := (bind c (fun x => k))
  (at level 10, x name, c at level 100, k at level 200).
Notation "c ;;; k" := (bind c (fun _ => k))
  (at level 100, k at level 200, right associativity).

Definition get {S} : M S S := fun s => Returns s s.
Definition put {S} (s : S) : M S unit := fun _ => Returns tt s.

(** A call that has no state of its own (a constructor, a function on
    values), and its use inside a stateful caller. *)
Definition result (A : Type) : Type := outcome unit A.

Definition call {S A} (r : result A) : M S A :=
  fun s =>
    match r with
    | Returns a _ => Returns a s
    | Panics e _ => Panics e s
    | Unfinished _ => Unfinished s
    end.

(** A fallible pure step: [None] is the panic [e]. *)
Definition orPanic {S A} (e : panic) (o : option A) : M S A :=
  match o with
  | Some a => ret a
  | None => throw e
  end.

(** [for _, x := range l { body x }] over a slice read once at loop entry. *)
Fixpoint forEach {S A} (l : list A) (body : A -> M S unit) : M S unit :=
  match l with
  | [] => ret tt
  | x :: rest => body x ;;; forEach rest body
  end.

(** The counting loop of the broadcasts:
    [for _, x := range l { if test x { approvals++ } }]. *)
Fixpoint countLoop {S A} (l : list A) (test : A -> M S bool) (approvals : Z) : M S Z :=
  match l with
  | [] => ret approvals
  | x :: rest =>
      let* ok := test x in
      countLoop rest test (if ok then wrap (approvals + 1) else approvals)
  end.

(** [s[len(s)-1]]: the last element, an index panic on an empty slice. *)
Definition lastElem {S A} (l : list A) : M S A :=
  orPanic IndexOutOfRange (last l).

(** [make([]T, n)] for an element type of [elemSize] bytes.  The runtime
    refuses the length, with the panic "makeslice: len out of range", when it
    is negative or when [elemSize * n] bytes are more than [maxAlloc], which
    is 2^48 where [int] has 64 bits.  A length it accepts is taken to be
    allocated: a machine that runs out of memory ends the process, which is
    no outcome of the program. *)
Definition maxAlloc : Z := 2 ^ 48.

Definition makesliceRefuses (elemSize n : Z) : Prop :=
  n < 0 \/ maxAlloc < elemSize * n.

(** ** Pointers

    [*Blockchain] values live in a store, a list indexed by address; a pointer
    is [Some] address or [None] for nil.  Every node of a network holds such a
    pointer, so what one node appends is seen through all of them. *)

Definition deref {X} (p : option nat) : M (list X) X :=
  fun h =>
    match p ≫= (fun a => h !! a) with
    | Some x => Returns x h
    | None => Panics NilDereference h
    end.

Definition store {X} (p : option nat) (x : X) : M (list X) unit :=
  fun h =>
    match p with
    | Some a => Returns tt (<[a := x]> h)
    | None => Panics NilDereference h
    end.

Definition alloc {X} (x : X) : M (list X) (option nat) :=
  fun h => Returns (Some (length h)) (h ++ [x]).

(** ** crypto/sha256 and fmt.Sprintf("%x") (FIPS 180-4) *)

Module SHA256.

Definition w32 (x : Z) : Z := x `mod` 2 ^ 32.
Definition add32 (x y : Z) : Z := w32 (x + y).
Definition rotr (n x : Z) : Z := Z.lor (Z.shiftr x n) (w32 (Z.shiftl x (32 - n))).
Definition shr (n x : Z) : Z := Z.shiftr x n.

Definition Ch (x y z : Z) : Z := Z.lxor (Z.land x y) (Z.land (Z.lxor x (2 ^ 32 - 1)) z).
Definition Maj (x y z : Z) : Z :=
  Z.lxor (Z.lxor (Z.land x y) (Z.land x z)) (Z.land y z).
Definition bsig0 (x : Z) : Z := Z.lxor (Z.lxor (rotr 2 x) (rotr 13 x)) (rotr 22 x).
Definition bsig1 (x : Z) : Z := Z.lxor (Z.lxor (rotr 6 x) (rotr 11 x)) (rotr 25 x).
Definition ssig0 (x : Z) : Z := Z.lxor (Z.lxor (rotr 7 x) (rotr 18 x)) (shr 3 x).
Definition ssig1 (x : Z) : Z := Z.lxor (Z.lxor (rotr 17 x) (rotr 19 x)) (shr 10 x).

(** The round constants are the first 32 bits of the fractional parts of the
    cube roots of the first 64 primes, the initial state those of the square
    roots of the first 8; both are computed from that definition. *)
Definition is_prime (n : nat) : bool :=
  forallb (fun d => negb (Nat.eqb (Nat.modulo n d) 0)) (seq 2 (n - 2)).

Definition primes64 : list Z :=
  Eval vm_compute in map Z.of_nat (take 64 (filter (fun n => is_prime n = true) (seq 2 320))).

(** Integer cube root below 2^40, one bit at a time. *)
Definition icbrt (n : Z) : Z :=
  fold_left (fun r i => let r' := r + 2 ^ Z.of_nat i in
                        if r' * r' * r' <=? n then r' else r)
            (rev (seq 0 40)) 0.

Definition K : list Z :=
  Eval vm_compute in map (fun p => w32 (icbrt (p * 2 ^ 96))) primes64.

Definition H0 : list Z :=
  Eval vm_compute in map (fun p => w32 (Z.sqrt (p * 2 ^ 64))) (take 8 primes64).

(** Big-endian bytes of a [k]-byte unsigned number. *)
Fixpoint be_bytes (k : nat) (x : Z) : list Z :=
  match k with
  | O => []
  | S k' => (x / 2 ^ (8 * Z.of_nat k')) `mod` 256 :: be_bytes k' x
  end.

Definition be_word (bs : list Z) : Z := fold_left (fun a b => a * 256 + b) bs 0.

(** Padding: 0x80, zeros up to 56 mod 64, then the bit length on 8 bytes. *)
Definition pad (msg : list Z) : list Z :=
  let n := len msg in
  let zeros := (64 - (n + 9) `mod` 64) `mod` 64 in
  msg ++ 128 :: replicate (Z.to_nat zeros) 0 ++ be_bytes 8 (8 * n).

Fixpoint words (fuel : nat) (bs : list Z) : list Z :=
  match fuel, bs with
  | S f, _ :: _ => be_word (take 4 bs) :: words f (drop 4 bs)
  | _, _ => []
  end.

Fixpoint chunks (fuel : nat) (ws : list Z) : list (list Z) :=
  match fuel, ws with
  | S f, _ :: _ => take 16 ws :: chunks f (drop 16 ws)
  | _, _ => []
  end.

(** The message schedule, most recent word first. *)
Fixpoint schedule (n : nat) (rev_w : list Z) : list Z :=
  match n with
  | O => rev_w
  | S n' =>
      let wt := add32 (add32 (ssig1 (nth 1 rev_w 0)) (nth 6 rev_w 0))
                      (add32 (ssig0 (nth 14 rev_w 0)) (nth 15 rev_w 0)) in
      schedule n' (wt :: rev_w)
  end.

Record regs : Type := Regs { ra : Z; rb : Z; rc : Z; rd : Z; re : Z; rf : Z; rg : Z; rh : Z }.

Definition round (s : regs) (kw : Z * Z) : regs :=
  let t1 := add32 (add32 (add32 (rh s) (bsig1 (re s))) (add32 (Ch (re s) (rf s) (rg s)) (fst kw))) (snd kw) in
  let t2 := add32 (bsig0 (ra s)) (Maj (ra s) (rb s) (rc s)) in
  Regs (add32 t1 t2) (ra s) (rb s) (rc s) (add32 (rd s) t1) (re s) (rf s) (rg s).

Definition regs_of (l : list Z) : regs :=
  Regs (nth 0 l 0) (nth 1 l 0) (nth 2 l 0) (nth 3 l 0) (nth 4 l 0) (nth 5 l 0) (nth 6 l 0) (nth 7 l 0).

Definition list_of (s : regs) : list Z :=
  [ra s; rb s; rc s; rd s; re s; rf s; rg s; rh s].

Definition compress (h : list Z) (chunk : list Z) : list Z :=
  let ws := rev (schedule 48 (rev chunk)) in
  let s := fold_left round (zip K ws) (regs_of h) in
  zip_with add32 h (list_of s).

Definition bytes_of_string (s : string) : list Z :=
  map (fun c => Z.of_N (Ascii.N_of_ascii c)) (String.list_ascii_of_string s).

(** [sha256.New(); Write(msg); Sum(nil)]: the 32 bytes of the digest. *)
Definition Sum256 (msg : string) : list Z :=
  let bs := pad (bytes_of_string msg) in
  let cs := chunks (length bs) (words (length bs) bs) in
  flat_map (be_bytes 4) (fold_left compress cs H0).

Definition hex_digit (d : Z) : Ascii.ascii :=
  Ascii.ascii_of_N (Z.to_N (if d <? 10 then 48 + d else 87 + d)).

(** [fmt.Sprintf("%x", bytes)]: two lower-case hex digits per byte. *)
Definition hex (bs : list Z) : string :=
  String.string_of_list_ascii (flat_map (fun b => [hex_digit (b / 16); hex_digit (b `mod` 16)]) bs).

Definition sha256_hex (msg : string) : string := hex (Sum256 msg).

End SHA256.


(** ** Package pow (algorithms/pow/pow.go) *)

Module PoW.

Record Block : Type := mkBlock {
  Index : Z;
  Timestamp : string;
  Data : string;
  PrevHash : string;
  Hash : string;
  Nonce : Z
}.

Record Blockchain : Type := mkBlockchain {
  Blocks : list Block
}.

Definition CalculateHash (b : Block) : string :=
  let record := Itoa (Index b) +:+ Timestamp b +:+ Data b +:+ PrevHash b +:+ Itoa (Nonce b) in
  SHA256.sha256_hex record.

Definition difficulty : Z := 4.
Definition target : string := "0000".

(** One turn of the loop body: [b.Nonce++; b.Hash = b.CalculateHash()]. *)
Definition mineStep (b : Block) : Block :=
  let b1 := mkBlock (Index b) (Timestamp b) (Data b) (PrevHash b) (Hash b) (wrap (Nonce b + 1)) in
  mkBlock (Index b1) (Timestamp b1) (Data b1) (PrevHash b1) (CalculateHash b1) (Nonce b1).

(** [for b.Hash[:difficulty] != target { ... }] on the receiver [b].  The
    loop test slices first, which panics unless [difficulty <= len(b.Hash)];
    the loop has no bound of its own, so the model counts turns in [fuel]. *)
Fixpoint MineBlock (fuel : nat) : M Block unit :=
  fun b =>
    match fuel with
    | O => Unfinished b
    | S fuel' =>
        if bool_decide (0 <= difficulty <= Z.of_nat (String.length (Hash b)))
        then
          if negb (String.eqb (String.substring 0 (Z.to_nat difficulty) (Hash b)) target)
          then MineBlock fuel' (mineStep b)
          else Returns tt b
        else Panics SliceBoundsOutOfRange b
    end.

(** [NewBlock] leaves [Hash] at its zero value, the empty string, and mines. *)
Definition NewBlock (fuel : nat) (data prevHash : string) (index : Z) (now : string)
  : result Block :=
  let block := mkBlock index now data prevHash "" 0 in
  match MineBlock fuel block with
  | Returns _ block' => Returns block' tt
  | Panics e _ => Panics e tt
  | Unfinished _ => Unfinished tt
  end.

Definition AddBlock (fuel : nat) (data now : string) : M Blockchain unit :=
  let* bc := get in
  let* prevBlock := lastElem (Blocks bc) in
  let* newBlock := call (NewBlock fuel data (Hash prevBlock) (wrap (Index prevBlock + 1)) now) in
  put (mkBlockchain (Blocks bc ++ [newBlock])).

Definition NewBlockchain (fuel : nat) (now : string) : result Blockchain :=
  (let* genesisBlock := call (NewBlock fuel "Genesis Block" "" 0 now) in
   ret (mkBlockchain [genesisBlock])) tt.

End PoW.

(** ** Package pos (algorithms/pos/pos.go) *)

Module PoS.

Record Block : Type := mkBlock {
  Index : Z;
  Timestamp : string;
  Data : string;
  PrevHash : string;
  Hash : string;
  Validator : string
}.

(** [Stakes] is only ever read, and reading a nil map is reading an empty one. *)
Record Blockchain : Type := mkBlockchain {
  Blocks : list Block;
  Validators : list string;
  Stakes : gmap string Z
}.

Definition CalculateHash (b : Block) : string :=
  let record := Itoa (Index b) +:+ Timestamp b +:+ Data b +:+ PrevHash b +:+ Validator b in
  SHA256.sha256_hex record.

Definition NewBlock (data prevHash : string) (index : Z) (validator now : string) : Block :=
  let block := mkBlock index now data prevHash "" validator in
  mkBlock (Index block) (Timestamp block) (Data block) (PrevHash block)
          (CalculateHash block) (Validator block).

(** [for _, stake := range bc.Stakes { totalStake += stake }], in the order
    [order] in which the runtime visits the map. *)
Fixpoint sumLoop (order : list (string * Z)) (totalStake : Z) : Z :=
  match order with
  | [] => totalStake
  | (_, stake) :: rest => sumLoop rest (wrap (totalStake + stake))
  end.

(** [for validator, stake := range bc.Stakes { runningTotal += stake;
    if runningTotal > pick { return validator } }]; [None] when the loop
    runs to its end. *)
Fixpoint walkLoop (order : list (string * Z)) (runningTotal pick : Z) : option string :=
  match order with
  | [] => None
  | (validator, stake) :: rest =>
      let runningTotal := wrap (runningTotal + stake) in
      if bool_decide (runningTotal > pick) then Some validator
      else walkLoop rest runningTotal pick
  end.

(** [rand.Intn(n)] panics for [n <= 0]; otherwise it returns the draw [pick],
    which the library takes from [0, n). *)
Definition Intn {S} (n pick : Z) : M S Z :=
  if bool_decide (n <= 0) then throw IntnInvalidArgument else ret pick.

(** [order1] and [order2] are the visiting orders of the two [range] loops
    over [bc.Stakes]. *)
Definition SelectValidator (order1 order2 : list (string * Z)) (pick : Z)
  : M Blockchain string :=
  let totalStake := sumLoop order1 0 in
  let* pick := Intn totalStake pick in
  match walkLoop order2 0 pick with
  | Some validator => ret validator
  | None => ret ""
  end.

Definition AddBlock (data now : string) (order1 order2 : list (string * Z)) (pick : Z)
  : M Blockchain unit :=
  let* bc := get in
  let* prevBlock := lastElem (Blocks bc) in
  let* validator := SelectValidator order1 order2 pick in
  let newBlock := NewBlock data (Hash prevBlock) (wrap (Index prevBlock + 1)) validator now in
  put (mkBlockchain (Blocks bc ++ [newBlock]) (Validators bc) (Stakes bc)).

Definition NewBlockchain (validators : list string) (stakes : gmap string Z) (now : string)
  : result Blockchain :=
  (let* v0 := orPanic IndexOutOfRange (validators !! 0%nat) in
   let genesisBlock := NewBlock "Genesis Block" "" 0 v0 now in
   ret (mkBlockchain [genesisBlock] validators stakes)) tt.

(** The visiting orders a [range] over the map [m] can have. *)
Definition enumerates (order : list (string * Z)) (m : gmap string Z) : Prop :=
  order ≡ₚ map_to_list m.

End PoS.

(** ** Package dpos (algorithms/dpos/dpos.go) *)

Module DPoS.

Record Block : Type := mkBlock {
  Index : Z;
  Timestamp : string;
  Data : string;
  PrevHash : string;
  Hash : string;
  Delegate : string
}.

(** [Voters] is written by [Vote]: [None] is the nil map, on which the
    assignment panics. *)
Record Blockchain : Type := mkBlockchain {
  Blocks : list Block;
  Delegates : list string;
  Voters : option (gmap string string)
}.

Definition CalculateHash (b : Block) : string :=
  let record := Itoa (Index b) +:+ Timestamp b +:+ Data b +:+ PrevHash b +:+ Delegate b in
  SHA256.sha256_hex record.

Definition NewBlock (data prevHash : string) (index : Z) (delegate now : string) : Block :=
  let block := mkBlock index now data prevHash "" delegate in
  mkBlock (Index block) (Timestamp block) (Data block) (PrevHash block)
          (CalculateHash block) (Delegate block).

(** [rand.Intn(len(bc.Delegates))] then [bc.Delegates[index]]; [pick] is the draw. *)
Definition SelectDelegate (pick : Z) : M Blockchain string :=
  let* bc := get in
  let* index := (if bool_decide (len (Delegates bc) <= 0)
                 then throw IntnInvalidArgument else ret pick) in
  orPanic IndexOutOfRange
    (if bool_decide (0 <= index) then Delegates bc !! Z.to_nat index else None).

Definition AddBlock (data now : string) (pick : Z) : M Blockchain unit :=
  let* bc := get in
  let* prevBlock := lastElem (Blocks bc) in
  let* delegate := SelectDelegate pick in
  let newBlock := NewBlock data (Hash prevBlock) (wrap (Index prevBlock + 1)) delegate now in
  put (mkBlockchain (Blocks bc ++ [newBlock]) (Delegates bc) (Voters bc)).

Definition NewBlockchain (delegates : list string) (voters : option (gmap string string))
    (now : string) : result Blockchain :=
  (let* d0 := orPanic IndexOutOfRange (delegates !! 0%nat) in
   let genesisBlock := NewBlock "Genesis Block" "" 0 d0 now in
   ret (mkBlockchain [genesisBlock] delegates voters)) tt.

(** [bc.Voters[voter] = delegate]. *)
Definition Vote (voter delegate : string) : M Blockchain unit :=
  let* bc := get in
  match Voters bc with
  | None => throw NilMapAssignment
  | Some voters =>
      put (mkBlockchain (Blocks bc) (Delegates bc) (Some (<[voter := delegate]> voters)))
  end.

(** [a[i]] for an [int] index. *)
Definition index {A} (l : list A) (i : Z) : option A :=
  if bool_decide (0 <= i) then l !! Z.to_nat i else None.

(** [for _, delegate := range bc.Voters { votes[delegate]++ }], in the order
    [order] in which the runtime visits the map. *)
Fixpoint tallyLoop (order : list (string * string)) (votes : gmap string Z) : gmap string Z :=
  match order with
  | [] => votes
  | (_, delegate) :: rest =>
      tallyLoop rest (<[delegate := wrap (default 0 (votes !! delegate) + 1)]> votes)
  end.

(** [for delegate := range votes { sortedDelegates = append(sortedDelegates,
    delegate) }]. *)
Fixpoint collectLoop (order : list (string * Z)) (sortedDelegates : list string) : list string :=
  match order with
  | [] => sortedDelegates
  | (delegate, _) :: rest => collectLoop rest (sortedDelegates ++ [delegate])
  end.

(** The closure given to [rand.Shuffle]:
    [sortedDelegates[i], sortedDelegates[j] = sortedDelegates[j], sortedDelegates[i]].
    Both elements are read first, then [i] is written, then [j]. *)
Definition swapDelegates (i j : Z) : M (list string) unit :=
  fun sortedDelegates =>
    match index sortedDelegates j, index sortedDelegates i with
    | Some dj, Some di =>
        Returns tt (<[Z.to_nat j := di]> (<[Z.to_nat i := dj]> sortedDelegates))
    | _, _ => Panics IndexOutOfRange sortedDelegates
    end.

(** [rangeVoters] and [rangeVotes] give the order in which the runtime visits
    a map in the two [range] loops; [swaps] is the sequence of calls
    [swap(i, j)] that [rand.Shuffle(len(sortedDelegates), swap)] makes, which
    the library takes from [0, len). *)
Definition CountVotes (rangeVoters : gmap string string -> list (string * string))
    (rangeVotes : gmap string Z -> list (string * Z)) (swaps : list (Z * Z))
  : M Blockchain unit :=
  let* bc := get in
  let votes := tallyLoop (rangeVoters (default ∅ (Voters bc))) ∅ in
  let sortedDelegates := collectLoop (rangeVotes votes) [] in
  let* shuffled :=
    call (match forEach swaps (fun ij => swapDelegates (fst ij) (snd ij)) sortedDelegates with
          | Returns _ l => Returns l tt
          | Panics e _ => Panics e tt
          | Unfinished _ => Unfinished tt
          end) in
  put (mkBlockchain (Blocks bc) shuffled (Voters bc)).

End DPoS.

(** ** Package pbft (algorithms/pbft/pbft.go) *)

Module PBFT.

Record Block : Type := mkBlock {
  Index : Z;
  Timestamp : string;
  Data : string;
  PrevHash : string;
  Hash : string
}.

(** The field [Blockchain *Blockchain] of the source is [BlockchainPtr]. *)
Record Node : Type := mkNode {
  ID : Z;
  IsPrimary : bool;
  State : string;
  BlockchainPtr : option nat
}.

Record Blockchain : Type := mkBlockchain {
  Blocks : list Block;
  Nodes : list Node
}.

Abbreviation Heap := (list Blockchain).

Definition CalculateHash (b : Block) : string :=
  let record := Itoa (Index b) +:+ Timestamp b +:+ Data b +:+ PrevHash b in
  SHA256.sha256_hex record.

Definition NewBlock (data prevHash : string) (index : Z) (now : string) : Block :=
  let block := mkBlock index now data prevHash "" in
  mkBlock (Index block) (Timestamp block) (Data block) (PrevHash block) (CalculateHash block).

Definition AddBlock (bc : option nat) (block : Block) : M Heap unit :=
  let* b := deref bc in
  store bc (mkBlockchain (Blocks b ++ [block]) (Nodes b)).

Definition NewBlockchain (now : string) : M Heap (option nat) :=
  let genesisBlock := NewBlock "Genesis Block" "" 0 now in
  alloc (mkBlockchain [genesisBlock] []).

Definition ProposeBlock (n : Node) (data now : string) : M Heap Block :=
  let* b := deref (BlockchainPtr n) in
  let* prevBlock := lastElem (Blocks b) in
  ret (NewBlock data (Hash prevBlock) (wrap (Index prevBlock + 1)) now).

Definition VerifyBlock (n : Node) (block : Block) : M Heap bool :=
  let* b := deref (BlockchainPtr n) in
  let* prevBlock := lastElem (Blocks b) in
  if String.eqb (PrevHash block) (Hash prevBlock)
  then ret (String.eqb (Hash block) (CalculateHash block))
  else ret false.

Definition BroadcastBlock (bc : option nat) (block : Block) : M Heap bool :=
  let* b := deref bc in
  let totalNodes := len (Nodes b) in
  let* approvals := countLoop (Nodes b) (fun node => VerifyBlock node block) 0 in
  ret (bool_decide (approvals >= wrap (2 * totalNodes) `quot` 3)).

Definition CommitBlock (n : Node) (block : Block) : M Heap unit :=
  AddBlock (BlockchainPtr n) block.

Definition RunPBFT (bc : option nat) (data now : string) : M Heap unit :=
  let* b := deref bc in
  let* primary := orPanic IndexOutOfRange (Nodes b !! 0%nat) in
  let* newBlock := ProposeBlock primary data now in
  let* ok := BroadcastBlock bc newBlock in
  if ok then
    let* b' := deref bc in
    forEach (Nodes b') (fun node => CommitBlock node newBlock)
  else ret tt.

Definition NewNode (id : Z) (isPrimary : bool) (blockchain : option nat) : Node :=
  mkNode id isPrimary "" blockchain.

(** The bytes of a [Node]: an [int], a [bool] padded to a word, a string
    header of two words and a pointer. *)
Definition NodeSize : Z := 40.

Definition NewPBFTNetwork (size : Z) (now : string) : M Heap (option nat) :=
  let* blockchain := NewBlockchain now in
  if bool_decide (makesliceRefuses NodeSize size) then throw MakeSliceLenOutOfRange
  else
    let nodes := map (fun i => NewNode i (bool_decide (i = 0)) blockchain) (seqZ 0 size) in
    let* b := deref blockchain in
    store blockchain (mkBlockchain (Blocks b) nodes) ;;;
    ret blockchain.

End PBFT.

(** ** Package raft (algorithms/raft/raft.go) *)

Module Raft.

Record Block : Type := mkBlock {
  Index : Z;
  Timestamp : string;
  Data : string;
  PrevHash : string;
  Hash : string
}.

Record Node : Type := mkNode {
  ID : Z;
  IsLeader : bool;
  BlockchainPtr : option nat
}.

(** A [*Node] into a network is the address of its Blockchain and the index
    of the node in [Nodes]; [Leader] is such a pointer or nil. *)
Record Blockchain : Type := mkBlockchain {
  Blocks : list Block;
  Nodes : list Node;
  Leader : option (nat * nat)
}.

Abbreviation Heap := (list Blockchain).

Definition CalculateHash (b : Block) : string :=
  let record := Itoa (Index b) +:+ Timestamp b +:+ Data b +:+ PrevHash b in
  SHA256.sha256_hex record.

Definition NewBlock (data prevHash : string) (index : Z) (now : string) : Block :=
  let block := mkBlock index now data prevHash "" in
  mkBlock (Index block) (Timestamp block) (Data block) (PrevHash block) (CalculateHash block).

Definition AddBlock (bc : option nat) (block : Block) : M Heap unit :=
  let* b := deref bc in
  store bc (mkBlockchain (Blocks b ++ [block]) (Nodes b) (Leader b)).

Definition NewBlockchain (now : string) : M Heap (option nat) :=
  let genesisBlock := NewBlock "Genesis Block" "" 0 now in
  alloc (mkBlockchain [genesisBlock] [] None).

Definition ProposeBlock (n : Node) (data now : string) : M Heap Block :=
  let* b := deref (BlockchainPtr n) in
  let* prevBlock := lastElem (Blocks b) in
  ret (NewBlock data (Hash prevBlock) (wrap (Index prevBlock + 1)) now).

Definition VerifyBlock (n : Node) (block : Block) : M Heap bool :=
  let* b := deref (BlockchainPtr n) in
  let* prevBlock := lastElem (Blocks b) in
  if String.eqb (PrevHash block) (Hash prevBlock)
  then ret (String.eqb (Hash block) (CalculateHash block))
  else ret false.

Definition BroadcastBlock (bc : option nat) (block : Block) : M Heap bool :=
  let* b := deref bc in
  let totalNodes := len (Nodes b) in
  let* approvals := countLoop (Nodes b) (fun node => VerifyBlock node block) 0 in
  ret (bool_decide (approvals > totalNodes `quot` 2)).

Definition CommitBlock (n : Node) (block : Block) : M Heap unit :=
  AddBlock (BlockchainPtr n) block.

Definition VoteFor (n : Node) (candidateID : Z) : bool := true.

(** The node behind a [*Node]. *)
Definition derefNode (np : nat * nat) : M Heap Node :=
  let* b := deref (Some (fst np)) in
  orPanic NilDereference (Nodes b !! snd np).

(** [n.RequestVote()] for [n] the node pointer [np]. *)
Definition RequestVote (np : nat * nat) : M Heap bool :=
  let* n := derefNode np in
  let* b := deref (BlockchainPtr n) in
  let totalNodes := len (Nodes b) in
  let* votes := countLoop (Nodes b) (fun node => ret (VoteFor node (ID n))) 0 in
  if bool_decide (votes > totalNodes `quot` 2) then
    let* own := deref (Some (fst np)) in
    store (Some (fst np))
      (mkBlockchain (Blocks own)
         (<[snd np := mkNode (ID n) true (BlockchainPtr n)]> (Nodes own)) (Leader own)) ;;;
    let* b' := deref (BlockchainPtr n) in
    store (BlockchainPtr n) (mkBlockchain (Blocks b') (Nodes b') (Some np)) ;;;
    ret true
  else ret false.

(** [n.Lead(data)]; [n] is only read, so the model takes the node itself. *)
Definition Lead (n : Node) (data now : string) : M Heap unit :=
  if IsLeader n then
    let* newBlock := ProposeBlock n data now in
    let* ok := BroadcastBlock (BlockchainPtr n) newBlock in
    if ok then
      let* b := deref (BlockchainPtr n) in
      forEach (Nodes b) (fun node => CommitBlock node newBlock)
    else ret tt
  else ret tt.

(** [bc.Leader.Lead(data)], the call the scenarios make. *)
Definition LeaderLead (bc : option nat) (data now : string) : M Heap unit :=
  let* b := deref bc in
  let* np := orPanic NilDereference (Leader b) in
  let* n := derefNode np in
  Lead n data now.

Definition NewNode (id : Z) (blockchain : option nat) : Node :=
  mkNode id false blockchain.

(** The bytes of a [Node]: an [int], a [bool] padded to a word and a pointer. *)
Definition NodeSize : Z := 24.

Definition NewRaftNetwork (size : Z) (now : string) : M Heap (option nat) :=
  let* blockchain := NewBlockchain now in
  if bool_decide (makesliceRefuses NodeSize size) then throw MakeSliceLenOutOfRange
  else
    let nodes := map (fun i => NewNode i blockchain) (seqZ 0 size) in
    let* b := deref blockchain in
    store blockchain (mkBlockchain (Blocks b) nodes (Leader b)) ;;;
    ret blockchain.

End Raft.

(** ** Package paxos (algorithms/paxos/paxos.go) *)

Module Paxos.

Record Block : Type := mkBlock {
  Index : Z;
  Timestamp : string;
  Data : string;
  PrevHash : string;
  Hash : string
}.

(** The field [Data] of the source's [Proposal] is [PData] here, [Data]
    being the field of [Block]. *)
Record Proposal : Type := mkProposal {
  ProposalID : Z;
  PData : string;
  Accepted : bool
}.

Record Node : Type := mkNode {
  ID : Z;
  Proposals : list Proposal;
  BlockchainPtr : option nat
}.

Record Blockchain : Type := mkBlockchain {
  Blocks : list Block;
  Nodes : list Node
}.

Abbreviation Heap := (list Blockchain).

Definition CalculateHash (b : Block) : string :=
  let record := Itoa (Index b) +:+ Timestamp b +:+ Data b +:+ PrevHash b in
  SHA256.sha256_hex record.

Definition NewBlock (data prevHash : string) (index : Z) (now : string) : Block :=
  let block := mkBlock index now data prevHash "" in
  mkBlock (Index block) (Timestamp block) (Data block) (PrevHash block) (CalculateHash block).

Definition AddBlock (bc : option nat) (block : Block) : M Heap unit :=
  let* b := deref bc in
  store bc (mkBlockchain (Blocks b ++ [block]) (Nodes b)).

Definition NewBlockchain (now : string) : M Heap (option nat) :=
  let genesisBlock := NewBlock "Genesis Block" "" 0 now in
  alloc (mkBlockchain [genesisBlock] []).

(** [n.Propose(data, proposalID)] writes [n.Proposals] through the receiver:
    the result is the proposal and the receiver's node after the call. *)
Definition Propose (n : Node) (data : string) (proposalID : Z) : Proposal * Node :=
  let proposal := mkProposal proposalID data false in
  (proposal, mkNode (ID n) (Proposals n ++ [proposal]) (BlockchainPtr n)).

(** [for _, p := range n.Proposals { if p.ProposalID == proposal.ProposalID
    { p.Accepted = true; return true } }; return false].  [p] is the loop's
    own copy of the element: the assignment changes that copy and nothing
    of [n]. *)
Fixpoint acceptLoop (ps : list Proposal) (proposal : Proposal) : bool :=
  match ps with
  | [] => false
  | p :: rest =>
      if bool_decide (ProposalID p = ProposalID proposal)
      then let p := mkProposal (ProposalID p) (PData p) true in true
      else acceptLoop rest proposal
  end.

Definition AcceptProposal (n : Node) (proposal : Proposal) : bool :=
  acceptLoop (Proposals n) proposal.

Definition BroadcastProposal (bc : option nat) (proposal : Proposal) : M Heap bool :=
  let* b := deref bc in
  let totalNodes := len (Nodes b) in
  let* approvals := countLoop (Nodes b) (fun node => ret (AcceptProposal node proposal)) 0 in
  ret (bool_decide (approvals > totalNodes `quot` 2)).

Definition CommitProposal (n : Node) (proposal : Proposal) (now : string) : M Heap unit :=
  let* b := deref (BlockchainPtr n) in
  let* prevBlock := lastElem (Blocks b) in
  let newBlock := NewBlock (PData proposal) (Hash prevBlock) (wrap (Index prevBlock + 1)) now in
  AddBlock (BlockchainPtr n) newBlock.

(** [proposer := bc.Nodes[0]] copies the node into a local variable, and
    [Propose] appends to that variable's [Proposals]; [bc.Nodes] is not
    written.  [nows i] is the clock reading of the commit of node [i]. *)
Definition RunPaxos (bc : option nat) (data : string) (proposalID : Z) (nows : nat -> string)
  : M Heap unit :=
  let* b := deref bc in
  let* proposer := orPanic IndexOutOfRange (Nodes b !! 0%nat) in
  let '(proposal, proposer) := Propose proposer data proposalID in
  let* ok := BroadcastProposal bc proposal in
  if ok then
    let* b' := deref bc in
    forEach (imap (fun i node => (i, node)) (Nodes b'))
            (fun inode => CommitProposal (snd inode) proposal (nows (fst inode)))
  else ret tt.

Definition NewNode (id : Z) (blockchain : option nat) : Node :=
  mkNode id [] blockchain.

(** The bytes of a [Node]: an [int], a slice header of three words and a
    pointer. *)
Definition NodeSize : Z := 40.

Definition NewPaxosNetwork (size : Z) (now : string) : M Heap (option nat) :=
  let* blockchain := NewBlockchain now in
  if bool_decide (makesliceRefuses NodeSize size) then throw MakeSliceLenOutOfRange
  else
    let nodes := map (fun i => NewNode i blockchain) (seqZ 0 size) in
    let* b := deref blockchain in
    store blockchain (mkBlockchain (Blocks b) nodes) ;;;
    ret blockchain.

End Paxos.

(** * Vocabulary of the statements *)

(** A call that only reads: whenever it returns, the state is the one it
    started in. *)
Definition readOnly {S B} (c : M S B) : Prop :=
  forall s b s', c s = Returns b s' -> s' = s.

(** A node whose pointer leads to a chain with at least one block: its
    [VerifyBlock] runs without a panic. *)
Definition PBFT_live (h : PBFT.Heap) (n : PBFT.Node) : Prop :=
  exists b prev, PBFT.BlockchainPtr n ≫= (fun a => h !! a) = Some b
                 /\ last (PBFT.Blocks b) = Some prev.

(** The vote of a node: [true] exactly when its [VerifyBlock] returns true. *)
Definition PBFT_approves (h : PBFT.Heap) (block : PBFT.Block) (n : PBFT.Node) : bool :=
  match PBFT.VerifyBlock n block h with
  | Returns true _ => true
  | _ => false
  end.

Definition PBFT_approvals (h : PBFT.Heap) (block : PBFT.Block) (nodes : list PBFT.Node) : Z :=
  len (filter (fun n => PBFT_approves h block n = true) nodes).

(** Every Record after the first names the hash of the Record before it. *)
Definition PBFT_chain_linked (blocks : list PBFT.Block) : Prop :=
  forall (i : nat) (cur prev : PBFT.Block),
    blocks !! Datatypes.S i = Some cur -> blocks !! i = Some prev ->
    PBFT.PrevHash cur = PBFT.Hash prev.

Definition Raft_live (h : list Raft.Blockchain) (n : Raft.Node) : Prop :=
  exists b prev, Raft.BlockchainPtr n ≫= (fun a => h !! a) = Some b
                 /\ last (Raft.Blocks b) = Some prev.

Definition Raft_approves (h : list Raft.Blockchain) (block : Raft.Block) (n : Raft.Node) : bool :=
  match Raft.VerifyBlock n block h with
  | Returns true _ => true
  | _ => false
  end.

Definition Raft_approvals (h : list Raft.Blockchain) (block : Raft.Block)
    (nodes : list Raft.Node) : Z :=
  len (filter (fun n => Raft_approves h block n = true) nodes).

Definition Paxos_approvals (proposal : Paxos.Proposal) (nodes : list Paxos.Node) : Z :=
  len (filter (fun n => Paxos.AcceptProposal n proposal = true) nodes).

(** Concrete networks: the store after [NewPBFTNetwork(5)],
    [NewRaftNetwork(4)] and [NewPaxosNetwork(5)] in a fresh program, with two
    clock readings in the format of [time.Now().String()]. *)
Definition clock0 : string := "2024-05-01 12:00:00.000000001 +0000 UTC m=+0.000012345".
Definition clock1 : string := "2024-05-01 12:00:00.000000002 +0000 UTC m=+0.000012346".

Definition stateAfter {S A} (o : outcome S A) (dflt : S) : S :=
  match o with
  | Returns _ s => s
  | _ => dflt
  end.

(** The state a call ends in, whichever way it ends. *)
Definition finalState {S A} (o : outcome S A) : S :=
  match o with
  | Returns _ s => s
  | Panics _ s => s
  | Unfinished s => s
  end.

Definition PBFT_five : list PBFT.Blockchain :=
  Eval vm_compute in stateAfter (PBFT.NewPBFTNetwork 5 clock0 []) [].

Definition Raft_four : list Raft.Blockchain :=
  Eval vm_compute in stateAfter (Raft.NewRaftNetwork 4 clock0 []) [].

Definition Paxos_five : list Paxos.Blockchain :=
  Eval vm_compute in stateAfter (Paxos.NewPaxosNetwork 5 clock0 []) [].

Definition PBFT_five_chain : PBFT.Blockchain :=
  Eval vm_compute in default (PBFT.mkBlockchain [] []) (PBFT_five !! 0%nat).

Definition Raft_four_chain : Raft.Blockchain :=
  Eval vm_compute in default (Raft.mkBlockchain [] [] None) (Raft_four !! 0%nat).

Definition Paxos_five_chain : Paxos.Blockchain :=
  Eval vm_compute in default (Paxos.mkBlockchain [] []) (Paxos_five !! 0%nat).

(** A block that no node of these networks accepts: its PrevHash is not the
    hash of the tip. *)
Definition PBFT_stray : PBFT.Block := PBFT.NewBlock "tx" "" 1 clock1.
Definition Raft_stray : Raft.Block := Raft.NewBlock "tx" "" 1 clock1.

(** Networks in which the quorum does fail.  PBFT: three nodes, two of which
    have been pointed at a second chain ([bc.Nodes[i].Blockchain = other]).
    Raft: four nodes, node 0 the leader, two pointed at a second chain, so
    that the vote is a tie.  Paxos: the network as [NewPaxosNetwork(5)]
    leaves it. *)
Definition PBFT_split : list PBFT.Blockchain :=
  Eval vm_compute in
    [PBFT.mkBlockchain [PBFT.NewBlock "Genesis Block" "" 0 clock0]
       [PBFT.NewNode 0 true (Some 0%nat); PBFT.NewNode 1 false (Some 1%nat);
        PBFT.NewNode 2 false (Some 1%nat)];
     PBFT.mkBlockchain [PBFT.NewBlock "Genesis Block" "" 0 clock1] []].

Definition PBFT_split_chain : PBFT.Blockchain :=
  Eval vm_compute in default (PBFT.mkBlockchain [] []) (PBFT_split !! 0%nat).

Definition PBFT_split_proposal : PBFT.Block :=
  Eval vm_compute in
    PBFT.NewBlock "tx1" (default "" (PBFT.Hash <$> last (PBFT.Blocks PBFT_split_chain))) 1 clock1.

Definition Raft_split : list Raft.Blockchain :=
  Eval vm_compute in
    [Raft.mkBlockchain [Raft.NewBlock "Genesis Block" "" 0 clock0]
       [Raft.mkNode 0 true (Some 0%nat); Raft.NewNode 1 (Some 0%nat);
        Raft.NewNode 2 (Some 1%nat); Raft.NewNode 3 (Some 1%nat)]
       (Some (0%nat, 0%nat));
     Raft.mkBlockchain [Raft.NewBlock "Genesis Block" "" 0 clock1] [] None].

Definition Raft_split_proposal : Raft.Block :=
  Eval vm_compute in
    Raft.NewBlock "block1"
      (default "" (Raft.Hash <$> (Raft_split !! 0%nat ≫= fun b => last (Raft.Blocks b)))) 1 clock1.

(** The sum of the stakes of an enumeration, and of a stake table. *)
Fixpoint stake_sum (l : list (string * Z)) : Z :=
  match l with
  | [] => 0
  | x :: rest => snd x + stake_sum rest
  end.

Definition total_stake (m : gmap string Z) : Z := stake_sum (map_to_list m).

(** [bc.Stakes[v]]: the stake of [v], zero for a name the table lacks. *)
Definition stake_of (m : gmap string Z) (v : string) : Z := default 0 (m !! v).

(** The stake an enumeration lists under the name [v]. *)
Definition listed_stake (l : list (string * Z)) (v : string) : Z :=
  stake_sum (filter (fun x => fst x = v) l).

(** The validator a call returned. *)
Definition selected (o : outcome PoS.Blockchain string) : option string :=
  match o with
  | Returns v _ => Some v
  | _ => None
  end.

(** How many of the draws [0, 1, ..., T-1] make [SelectValidator] return [v]. *)
Definition draws_selecting (bc : PoS.Blockchain) (order1 order2 : list (string * Z))
    (T : Z) (v : string) : Z :=
  len (filter (fun pick => selected (PoS.SelectValidator order1 order2 pick bc) = Some v)
              (seqZ 0 T)).

(** [v] is the first participant of [order] whose running sum exceeds [pick]. *)
Definition first_exceeding (order : list (string * Z)) (pick : Z) (v : string) : Prop :=
  exists pre s post,
    order = pre ++ (v, s) :: post
    /\ stake_sum pre + s > pick
    /\ forall pre' x post', pre = pre' ++ x :: post' -> stake_sum pre' + snd x <= pick.

(** Every Record after the first names the hash of the Record before it. *)
Definition PoS_chain_linked (blocks : list PoS.Block) : Prop :=
  forall (i : nat) (cur prev : PoS.Block),
    blocks !! Datatypes.S i = Some cur -> blocks !! i = Some prev ->
    PoS.PrevHash cur = PoS.Hash prev.

(** The stake table of the repository's own test, and a chain built on it. *)
Definition PoS_test_stakes : gmap string Z := {[ "Alice" := 70; "Bob" := 30 ]}.

Definition PoS_test_order : list (string * Z) :=
  Eval vm_compute in map_to_list PoS_test_stakes.

Definition PoS_chainOf (r : result PoS.Blockchain) : PoS.Blockchain :=
  match r with
  | Returns bc _ => bc
  | _ => PoS.mkBlockchain [] [] ∅
  end.

Definition PoS_test_chain : PoS.Blockchain :=
  Eval vm_compute in PoS_chainOf (PoS.NewBlockchain ["Alice"; "Bob"] PoS_test_stakes clock0).

(** A table with a negative stake, which [map[string]int] admits. *)
Definition PoS_negative_stakes : gmap string Z := {[ "A" := 5; "B" := -2 ]}.

Definition PoS_negative_order : list (string * Z) := [("A", 5); ("B", -2)].

Definition PoS_negative_chain : PoS.Blockchain :=
  Eval vm_compute in PoS_chainOf (PoS.NewBlockchain ["A"; "B"] PoS_negative_stakes clock0).

(** Two stakes of 2^62: none is negative, and their sum 2^63 is one more than
    the largest [int]. *)
Definition PoS_overflow_stakes : gmap string Z :=
  {[ "Alice" := 4611686018427387904; "Bob" := 4611686018427387904 ]}.

Definition PoS_overflow_order : list (string * Z) :=
  [("Alice", 4611686018427387904); ("Bob", 4611686018427387904)].

Definition PoS_overflow_chain : PoS.Blockchain :=
  Eval vm_compute in
    PoS_chainOf (PoS.NewBlockchain ["Alice"; "Bob"] PoS_overflow_stakes clock0).

Definition PoS_zero_stakes : gmap string Z := {[ "Alice" := 0; "Bob" := 0 ]}.

Definition PoS_zero_chain : PoS.Blockchain :=
  Eval vm_compute in PoS_chainOf (PoS.NewBlockchain ["Alice"; "Bob"] PoS_zero_stakes clock0).

(** The format of a digest as [fmt.Sprintf("%x")] prints it: 64 characters,
    each a digit or a letter a-f. *)
Definition is_lower_hex (c : Ascii.ascii) : bool :=
  existsb (Ascii.eqb c) (String.list_ascii_of_string "0123456789abcdef").

Definition hash_format (s : string) : Prop :=
  String.length s = 64%nat
  /\ Forall (fun c => is_lower_hex c = true) (String.list_ascii_of_string s).



Definition PoW_unmined : PoW.Block :=
  Eval vm_compute in
    PoW.mkBlock 1 clock1 "tx53048"
      "1d11ce59ac25a0b4e0a1406ee0553cc5c17cf34ccec466a0bfeb21215f637e30"
      (PoW.CalculateHash
         (PoW.mkBlock 1 clock1 "tx53048"
            "1d11ce59ac25a0b4e0a1406ee0553cc5c17cf34ccec466a0bfeb21215f637e30" "" 0))
      0.

(** A call that leaves the state as it found it, however it ends. *)
Definition keepsState {S A} (c : M S A) : Prop := forall s, finalState (c s) = s.

(** The store [h'] holds the chains of [h] at the same addresses, each with
    the Nodes it had and with Blocks that start with the Blocks it had. *)
Definition PBFT_extends (h h' : list PBFT.Blockchain) : Prop :=
  length h' = length h
  /\ forall a b, h !! a = Some b ->
       exists b', h' !! a = Some b'
                  /\ PBFT.Nodes b' = PBFT.Nodes b
                  /\ PBFT.Blocks b `prefix_of` PBFT.Blocks b'.

Definition Raft_extends (h h' : list Raft.Blockchain) : Prop :=
  length h' = length h
  /\ forall a b, h !! a = Some b ->
       exists b', h' !! a = Some b'
                  /\ Raft.Nodes b' = Raft.Nodes b
                  /\ Raft.Leader b' = Raft.Leader b
                  /\ Raft.Blocks b `prefix_of` Raft.Blocks b'.

Definition Paxos_extends (h h' : list Paxos.Blockchain) : Prop :=
  length h' = length h
  /\ forall a b, h !! a = Some b ->
       exists b', h' !! a = Some b'
                  /\ Paxos.Nodes b' = Paxos.Nodes b
                  /\ Paxos.Blocks b `prefix_of` Paxos.Blocks b'.



Definition Paxos_chain_linked (blocks : list Paxos.Block) : Prop :=
  forall (i : nat) (cur prev : Paxos.Block),
    blocks !! Datatypes.S i = Some cur -> blocks !! i = Some prev ->
    Paxos.PrevHash cur = Paxos.Hash prev.

(** A Paxos network of three nodes of which two have recorded, by their own
    [Propose], a proposal numbered 1. *)
Definition Paxos_recorded : list Paxos.Blockchain :=
  Eval vm_compute in
    [Paxos.mkBlockchain [Paxos.NewBlock "Genesis Block" "" 0 clock0]
       [snd (Paxos.Propose (Paxos.NewNode 0 (Some 0%nat)) "d1" 1);
        snd (Paxos.Propose (Paxos.NewNode 1 (Some 0%nat)) "d1" 1);
        Paxos.NewNode 2 (Some 0%nat)]].

Definition Paxos_recorded_chain : Paxos.Blockchain :=
  Eval vm_compute in default (Paxos.mkBlockchain [] []) (Paxos_recorded !! 0%nat).

(** A stakes table with a participant that holds no stake. *)
Definition PoS_idle_stakes : gmap string Z := {[ "Alice" := 70; "Bob" := 0; "Carol" := 30 ]}.

Definition PoS_idle_chain : PoS.Blockchain :=
  Eval vm_compute in
    PoS_chainOf (PoS.NewBlockchain ["Alice"; "Bob"; "Carol"] PoS_idle_stakes clock0).

(** One call of the PoS [AddBlock]: the data, the clock reading, the visiting
    orders of the two loops and the draw; [PoS_rounds] makes the calls one
    after the other. *)
Definition PoS_call : Type := string * string * list (string * Z) * list (string * Z) * Z.

Definition PoS_call_data (c : PoS_call) : string := fst (fst (fst (fst c))).

Definition PoS_call_order1 (c : PoS_call) : list (string * Z) := snd (fst (fst c)).

Definition PoS_rounds (calls : list PoS_call) : M PoS.Blockchain unit :=
  forEach calls
    (fun c => PoS.AddBlock (PoS_call_data c) (snd (fst (fst (fst c))))
                (PoS_call_order1 c) (snd (fst c)) (snd c)).

(** The Record at position [i] has Index [i] and the hash its fields give. *)
Definition PoS_numbered (blocks : list PoS.Block) : Prop :=
  forall (i : nat) (b : PoS.Block),
    blocks !! i = Some b -> PoS.Index b = Z.of_nat i /\ PoS.CalculateHash b = PoS.Hash b.

Definition DPoS_chain_linked (blocks : list DPoS.Block) : Prop :=
  forall (i : nat) (cur prev : DPoS.Block),
    blocks !! Datatypes.S i = Some cur -> blocks !! i = Some prev ->
    DPoS.PrevHash cur = DPoS.Hash prev.

(** The calls [swap(i, j)] of a shuffle of [n] elements stay inside [0, n). *)
Definition DPoS_swaps_in_range (n : Z) (swaps : list (Z * Z)) : Prop :=
  Forall (fun ij => (0 <= fst ij < n) /\ (0 <= snd ij < n)) swaps.

(** The votes per delegate that the first loop of [CountVotes] counts. *)
Definition DPoS_tally (voters : gmap string string) : gmap string Z :=
  DPoS.tallyLoop (map_to_list voters) ∅.

Definition DPoS_chainOf (r : result DPoS.Blockchain) : DPoS.Blockchain :=
  match r with
  | Returns bc _ => bc
  | _ => DPoS.mkBlockchain [] [] None
  end.

(** The chain of the voting example and of the DPoS test before any vote,
    and the chain of the voting example after its five votes. *)
Definition DPoS_fresh_chain : DPoS.Blockchain :=
  Eval vm_compute in
    DPoS_chainOf (DPoS.NewBlockchain ["Alice"; "Bob"; "Charlie"] (Some ∅) clock0).

Definition DPoS_voted_chain : DPoS.Blockchain :=
  Eval vm_compute in
    stateAfter ((DPoS.Vote "Voter1" "Alice" ;;; DPoS.Vote "Voter2" "Bob" ;;;
                 DPoS.Vote "Voter3" "Alice" ;;; DPoS.Vote "Voter4" "Charlie" ;;;
                 DPoS.Vote "Voter5" "Bob") DPoS_fresh_chain) DPoS_fresh_chain.

(** The Voters table of the DPoS test after its two votes. *)
Definition DPoS_test_voters : gmap string string :=
  <["Voter2" := "Bob"]> (<["Voter1" := "Alice"]> ∅).

(** * Properties *)

Arguments SHA256.sha256_hex : simpl never.

(** Known answers for the digest (FIPS 180-4 examples). *)
Example sha256_abc :
  SHA256.sha256_hex "abc"
  = "ba7816bf8f01cfea414140de5dae2223b00361a396177a9cb410ff61f20015ad".
Proof. vm_compute. reflexivity. Qed.

Example sha256_empty :
  SHA256.sha256_hex ""
  = "e3b0c44298fc1c149afbf4c8996fb92427ae41e4649b934ca495991b7852b855".
Proof. vm_compute. reflexivity. Qed.

Example sha256_two_blocks :
  SHA256.sha256_hex "abcdbcdecdefdefgefghfghighijhijkijkljklmklmnlmnomnopnopq"
  = "248d6a61d20638b8e5c026930c3e6039a33ce45964ff2167f6ecedd419db06c1".
Proof. vm_compute. reflexivity. Qed.

Example Itoa_samples : (Itoa 0, Itoa 305, Itoa (-12)) = ("0", "305", "-12").
Proof. vm_compute. reflexivity. Qed.

(** ** Integers *)

Lemma wrap_id z : min_int <= z <= max_int -> wrap z = z.
Proof.
  unfold wrap, min_int, max_int, int_bits. intros Hz.
  rewrite Z.mod_small; lia.
Qed.

Lemma wrap_range z : min_int <= wrap z <= max_int.
Proof.
  unfold wrap, min_int, max_int, int_bits.
  pose proof (Z.mod_pos_bound (z - - 2 ^ (64 - 1)) (2 ^ 64) ltac:(lia)). lia.
Qed.

Lemma wrap_wrap_add x y : wrap (wrap x + y) = wrap (x + y).
Proof.
  unfold wrap. f_equal.
  replace ((x - min_int) `mod` 2 ^ int_bits + min_int + y - min_int)
    with ((x - min_int) `mod` 2 ^ int_bits + y) by lia.
  rewrite Zplus_mod_idemp_l. f_equal. lia.
Qed.

Lemma two_thirds_le n : 0 <= n -> (2 * n) `div` 3 <= n.
Proof. intros Hn. apply Z.div_le_upper_bound; lia. Qed.

Lemma half_lt n : 0 < n -> n `div` 2 < n.
Proof. intros Hn. apply Z.div_lt_upper_bound; lia. Qed.

Lemma max_int_value : max_int = 9223372036854775807.
Proof. reflexivity. Qed.

(** ** The loops *)

Section Loops.
Context {S A : Type}.

Lemma countLoop_readOnly (l : list A) (test : A -> M S bool) :
  (forall x, readOnly (test x)) ->
  forall approvals, readOnly (countLoop l test approvals).
Proof.
  intros Htest. induction l as [|x rest IH]; intros approvals s b s' Hrun.
  - cbv [countLoop ret] in Hrun. congruence.
  - cbn [countLoop] in Hrun. unfold bind in Hrun.
    destruct (test x s) as [ok s1|e s1|s1] eqn:Hx; try discriminate.
    apply Htest in Hx. subst s1. eapply IH, Hrun.
Qed.

(** With tests that return [f x] and leave the state alone, the loop counts
    the elements that pass, as long as the counter stays an [int]. *)
Lemma countLoop_counts (l : list A) (test : A -> M S bool) (f : A -> bool) (s : S) :
  Forall (fun x => test x s = Returns (f x) s) l ->
  forall approvals,
    0 <= approvals -> approvals + len l <= max_int ->
    countLoop l test approvals s
    = Returns (approvals + len (filter (fun x => f x = true) l)) s.
Proof.
  unfold len. induction 1 as [|x rest Hx _ IH]; intros approvals Hlo Hhi.
  - cbn. unfold ret. f_equal. lia.
  - cbn [countLoop]. unfold bind. rewrite Hx.
    cbn [length] in Hhi. rewrite filter_cons.
    pose proof (length_filter (fun x => f x = true) rest) as Hle.
    destruct (f x) eqn:Hfx.
    + rewrite wrap_id by (unfold min_int, max_int, int_bits in *; lia).
      rewrite IH by lia. rewrite decide_True by done. cbn [length]. f_equal. lia.
    + rewrite IH by lia. rewrite decide_False by done. done.
Qed.
End Loops.

Lemma filter_all {A} (P : A -> Prop) `{!forall x, Decision (P x)} (l : list A) :
  Forall P l -> filter P l = l.
Proof.
  induction 1 as [|x l Hx _ IH]; [done|].
  rewrite filter_cons_True by done. by rewrite IH.
Qed.

Lemma filter_none {A} (P : A -> Prop) `{!forall x, Decision (P x)} (l : list A) :
  Forall (fun x => ~ P x) l -> filter P l = [].
Proof.
  induction 1 as [|x l Hx _ IH]; [done|].
  by rewrite filter_cons_False.
Qed.

(** ** Proof of Work *)

(** A block whose hash is shorter than the difficulty makes the loop test of
    [MineBlock] slice out of range. *)
Lemma PoW_MineBlock_short_hash fuel (b : PoW.Block) :
  (String.length (PoW.Hash b) < 4)%nat ->
  PoW.MineBlock (S fuel) b = Panics SliceBoundsOutOfRange b.
Proof.
  intros Hlen. cbn [PoW.MineBlock]. unfold PoW.difficulty.
  rewrite bool_decide_eq_false_2; [done | lia].
Qed.


Example PoW_MineBlock_mined_already :
  PoW.MineBlock 1 (PoW.mkBlock 1 "t" "d" "p" "0000ab" 7)
  = Returns tt (PoW.mkBlock 1 "t" "d" "p" "0000ab" 7).
Proof. reflexivity. Qed.

(** C5 (evaluated on the code): the claim asks that the first loop test of
    [MineBlock] slices in bounds.  [NewBlock] enters the loop with the hash
    still empty, so for every argument the first test [b.Hash[:4]] is out of
    range: [NewBlock] panics, and so does [NewBlockchain]. *)
Theorem PoW_NewBlock_first_test_out_of_range :
  forall (fuel : nat) (data prevHash : string) (index : Z) (now : string),
    PoW.MineBlock (S fuel) (PoW.mkBlock index now data prevHash "" 0)
    = Panics SliceBoundsOutOfRange (PoW.mkBlock index now data prevHash "" 0)
    /\ PoW.NewBlock (S fuel) data prevHash index now = Panics SliceBoundsOutOfRange tt
    /\ PoW.NewBlockchain (S fuel) now = Panics SliceBoundsOutOfRange tt.
Proof.
  intros fuel data prevHash index now.
  assert (Hmine : forall d p i,
    PoW.MineBlock (S fuel) (PoW.mkBlock i now d p "" 0)
    = Panics SliceBoundsOutOfRange (PoW.mkBlock i now d p "" 0)).
  { intros. apply PoW_MineBlock_short_hash. cbn. lia. }
  split; [apply Hmine|]. split.
  - unfold PoW.NewBlock. by rewrite Hmine.
  - unfold PoW.NewBlockchain, PoW.NewBlock, bind, call. by rewrite Hmine.
Qed.

(** No call commits a Record: [NewBlockchain] panics instead of returning a
    chain with a genesis Record, and [AddBlock] panics on every chain and
    leaves it as it was. *)
Lemma PoW_no_record_is_committed :
  forall (fuel : nat) (data now : string),
    PoW.NewBlockchain (S fuel) now = Panics SliceBoundsOutOfRange tt
    /\ forall bc : PoW.Blockchain,
         exists e, PoW.AddBlock (S fuel) data now bc = Panics e bc.
Proof.
  intros fuel data now. split.
  - unfold PoW.NewBlockchain, PoW.NewBlock, bind, call.
    by rewrite PoW_MineBlock_short_hash by (cbn; lia).
  - intros bc. unfold PoW.AddBlock, bind, get, lastElem, orPanic.
    destruct (last (PoW.Blocks bc)) as [prevBlock|].
    + exists SliceBoundsOutOfRange. unfold ret, call, PoW.NewBlock.
      by rewrite PoW_MineBlock_short_hash by (cbn; lia).
    + by exists IndexOutOfRange.
Qed.




(** ** Delegated Proof of Stake *)

(** C10: a second [Vote] of the same voter overwrites the first.  The two
    calls in sequence end exactly as the second one alone.  On a chain with a
    Voters table they return, and the table they leave maps [v] to [d2],
    whatever [d1] was, with the entry of every other voter, the Blocks and
    the Delegates as they were before the two calls.  On the nil table the
    first call panics, in the unchanged state, as the second alone does. *)
Theorem DPoS_Vote_last_write_wins :
  forall (bc : DPoS.Blockchain) (v d1 d2 : string),
    (DPoS.Vote v d1 ;;; DPoS.Vote v d2) bc = DPoS.Vote v d2 bc
    /\ match DPoS.Voters bc with
       | Some voters =>
           exists voters' : gmap string string,
             (DPoS.Vote v d1 ;;; DPoS.Vote v d2) bc
             = Returns tt (DPoS.mkBlockchain (DPoS.Blocks bc) (DPoS.Delegates bc)
                             (Some voters'))
             /\ voters' !! v = Some d2
             /\ delete v voters' = delete v voters
       | None =>
           (DPoS.Vote v d1 ;;; DPoS.Vote v d2) bc = Panics NilMapAssignment bc
       end.
Proof.
  intros [blocks delegates [voters|]] v d1 d2; unfold DPoS.Vote, bind, get, put, throw; cbn.
  - rewrite insert_insert_eq. split; [done|].
    exists (<[v := d2]> voters). split; [done|]. split.
    + apply lookup_insert_eq.
    + apply delete_insert_eq.
  - done.
Qed.

Example DPoS_Vote_twice :
  (DPoS.Vote "Voter1" "Alice" ;;; DPoS.Vote "Voter1" "Bob")
    (DPoS.mkBlockchain [] ["Alice"; "Bob"] (Some ∅))
  = Returns tt (DPoS.mkBlockchain [] ["Alice"; "Bob"] (Some {[ "Voter1" := "Bob" ]})).
Proof. vm_compute. reflexivity. Qed.

(** ** The store *)

Ltac unfold_m :=
  repeat progress
    (unfold bind, ret, throw, get, put, orPanic, lastElem, deref, store, alloc, call in *;
     cbv beta iota in *).

Ltac solve_readOnly :=
  let s := fresh "s" in let r := fresh "r" in let s' := fresh "s'" in
  let Hrun := fresh "Hrun" in
  intros s r s' Hrun;
  repeat first [progress unfold_m | progress simplify_eq | case_match]; done.

Lemma deref_readOnly {X} (p : option nat) : readOnly (deref (X := X) p).
Proof. solve_readOnly. Qed.

Lemma deref_Some {X} (h : list X) (a : nat) (x : X) :
  h !! a = Some x -> deref (Some a) h = Returns x h.
Proof. intros Hx. unfold deref. cbn. by rewrite Hx. Qed.

Lemma deref_alloc {X} (h : list X) (x : X) :
  deref (Some (length h)) (h ++ [x]) = Returns x (h ++ [x]).
Proof. apply deref_Some, list_lookup_middle. done. Qed.

Lemma insert_alloc {X} (h : list X) (x y : X) :
  <[length h := y]> (h ++ [x]) = h ++ [y].
Proof.
  rewrite insert_app_r_alt by lia. by rewrite Nat.sub_diag.
Qed.

(** ** PBFT *)

Lemma PBFT_VerifyBlock_readOnly n block : readOnly (PBFT.VerifyBlock n block).
Proof. unfold PBFT.VerifyBlock. solve_readOnly. Qed.

Lemma PBFT_ProposeBlock_readOnly n data now : readOnly (PBFT.ProposeBlock n data now).
Proof. unfold PBFT.ProposeBlock. solve_readOnly. Qed.

Lemma PBFT_BroadcastBlock_readOnly bc block : readOnly (PBFT.BroadcastBlock bc block).
Proof.
  intros s r s' Hrun. unfold PBFT.BroadcastBlock in Hrun.
  unfold bind at 1 in Hrun.
  destruct (deref bc s) as [b s1|e s1|s1] eqn:Hd; try discriminate.
  apply deref_readOnly in Hd. subst s1.
  unfold bind in Hrun.
  destruct (countLoop _ _ _ s) as [k s2|e s2|s2] eqn:Hc; try discriminate.
  apply countLoop_readOnly in Hc; [|intros; apply PBFT_VerifyBlock_readOnly].
  unfold ret in Hrun. congruence.
Qed.

Lemma PBFT_VerifyBlock_live h n block :
  PBFT_live h n -> PBFT.VerifyBlock n block h = Returns (PBFT_approves h block n) h.
Proof.
  intros (b & prev & Hb & Hprev).
  unfold PBFT_approves, PBFT.VerifyBlock. unfold_m. rewrite Hb. unfold_m.
  rewrite Hprev. unfold_m. by repeat case_match.
Qed.

(** What [BroadcastBlock] computes, on a network of live nodes. *)
Lemma PBFT_BroadcastBlock_threshold h a b block :
  h !! a = Some b ->
  Forall (PBFT_live h) (PBFT.Nodes b) ->
  2 * len (PBFT.Nodes b) <= max_int ->
  PBFT.BroadcastBlock (Some a) block h
  = Returns (bool_decide ((2 * len (PBFT.Nodes b)) `div` 3
                          <= PBFT_approvals h block (PBFT.Nodes b))) h.
Proof.
  intros Hb Hlive Hsize. unfold PBFT.BroadcastBlock.
  unfold bind at 1. rewrite (deref_Some _ _ _ Hb).
  unfold bind. rewrite (countLoop_counts _ _ (PBFT_approves h block)).
  - unfold ret, PBFT_approvals. f_equal.
    rewrite wrap_id by (unfold len, min_int, max_int, int_bits in *; lia).
    rewrite Z.quot_div_nonneg by (unfold len; lia).
    apply bool_decide_ext. lia.
  - eapply Forall_impl; [exact Hlive|]. intros n Hn. by apply PBFT_VerifyBlock_live.
  - lia.
  - unfold len in *. lia.
Qed.

(** The commit loop of a network whose nodes all point to the chain at [a]:
    every node appends the block to that one chain. *)
Lemma PBFT_commit_loop nodes a blk :
  Forall (fun n => PBFT.BlockchainPtr n = Some a) nodes ->
  forall h b, h !! a = Some b ->
    forEach nodes (fun node => PBFT.CommitBlock node blk) h
    = Returns tt (<[a := PBFT.mkBlockchain (PBFT.Blocks b ++ replicate (length nodes) blk)
                                           (PBFT.Nodes b)]> h).
Proof.
  induction 1 as [|n rest Hn _ IH]; intros h b Hb.
  - cbn. rewrite app_nil_r. unfold ret. f_equal. destruct b. cbn.
    by rewrite list_insert_id.
  - cbn [forEach]. unfold bind, PBFT.CommitBlock, PBFT.AddBlock.
    rewrite Hn. unfold bind. rewrite (deref_Some _ _ _ Hb). unfold store.
    erewrite IH; cycle 1.
    { apply list_lookup_insert_eq. by eapply lookup_lt_Some. }
    rewrite list_insert_insert_eq. cbn. by rewrite <- app_assoc.
Qed.

(** A block made by [NewBlock] carries the hash [CalculateHash] gives it. *)
Lemma PBFT_NewBlock_hash data prevHash index now :
  PBFT.CalculateHash (PBFT.NewBlock data prevHash index now)
  = PBFT.Hash (PBFT.NewBlock data prevHash index now).
Proof. reflexivity. Qed.

(** [RunPBFT] on a network whose nodes share the chain at [a]: the proposal
    of the primary passes every node's check, and the block is appended once
    per node. *)
Lemma PBFT_RunPBFT_shared h a b prev data now :
  h !! a = Some b ->
  PBFT.Nodes b <> [] ->
  Forall (fun n => PBFT.BlockchainPtr n = Some a) (PBFT.Nodes b) ->
  last (PBFT.Blocks b) = Some prev ->
  2 * len (PBFT.Nodes b) <= max_int ->
  PBFT.RunPBFT (Some a) data now h
  = Returns tt
      (<[a := PBFT.mkBlockchain
                (PBFT.Blocks b
                 ++ replicate (length (PBFT.Nodes b))
                      (PBFT.NewBlock data (PBFT.Hash prev) (wrap (PBFT.Index prev + 1)) now))
                (PBFT.Nodes b)]> h).
Proof.
  intros Hb Hne Hptr Hprev Hsize.
  set (blk := PBFT.NewBlock data (PBFT.Hash prev) (wrap (PBFT.Index prev + 1)) now).
  assert (Hlive : Forall (PBFT_live h) (PBFT.Nodes b)).
  { eapply Forall_impl; [exact Hptr|]. intros n Hn. exists b, prev.
    rewrite Hn. cbn. done. }
  assert (Hyes : Forall (fun n => PBFT_approves h blk n = true) (PBFT.Nodes b)).
  { eapply Forall_impl; [exact Hptr|]. intros n Hn.
    unfold PBFT_approves, PBFT.VerifyBlock. unfold_m. rewrite Hn. cbn.
    rewrite Hb, Hprev. subst blk. cbn [PBFT.PrevHash PBFT.NewBlock].
    rewrite String.eqb_refl. by rewrite !String.eqb_refl. }
  unfold PBFT.RunPBFT. unfold bind at 1. rewrite (deref_Some _ _ _ Hb).
  destruct (PBFT.Nodes b) as [|primary rest] eqn:Hnodes; [done|].
  cbn [lookup list_lookup orPanic]. unfold bind at 1, ret at 1.
  unfold bind at 1, PBFT.ProposeBlock.
  apply Forall_cons in Hptr as Hptr'. destruct Hptr' as [Hp _]. rewrite Hp.
  unfold bind at 1. rewrite (deref_Some _ _ _ Hb).
  unfold bind at 1, lastElem. rewrite Hprev. cbn [orPanic]. unfold ret at 1 2.
  fold blk. unfold bind at 1.
  rewrite (PBFT_BroadcastBlock_threshold h a b blk Hb); rewrite ?Hnodes; try done.
  unfold PBFT_approvals. rewrite filter_all by done.
  rewrite bool_decide_eq_true_2 by (apply two_thirds_le; unfold len; lia).
  unfold bind. rewrite (deref_Some _ _ _ Hb). rewrite Hnodes.
  rewrite (PBFT_commit_loop _ a blk Hptr h b Hb). by rewrite Hnodes.
Qed.

Lemma PBFT_NewPBFTNetwork_returns (h0 : list PBFT.Blockchain) size now :
  0 <= size -> PBFT.NodeSize * size <= maxAlloc ->
  PBFT.NewPBFTNetwork size now h0
  = Returns (Some (length h0))
      (h0 ++ [PBFT.mkBlockchain
                [PBFT.NewBlock "Genesis Block" "" 0 now]
                (map (fun i => PBFT.NewNode i (bool_decide (i = 0)) (Some (length h0)))
                     (seqZ 0 size))]).
Proof.
  intros Hsize Hmem. unfold PBFT.NewPBFTNetwork, PBFT.NewBlockchain.
  unfold bind at 1, alloc.
  rewrite bool_decide_eq_false_2 by (unfold makesliceRefuses; lia).
  unfold bind at 1. rewrite deref_alloc.
  unfold bind, store, ret. cbn [PBFT.Blocks]. by rewrite insert_alloc.
Qed.

(** The nodes [NewPBFTNetwork] makes all hold the pointer to the one chain. *)
Lemma PBFT_network_nodes_shared (a : nat) (size : Z) :
  Forall (fun n => PBFT.BlockchainPtr n = Some a)
         (map (fun i => PBFT.NewNode i (bool_decide (i = 0)) (Some a)) (seqZ 0 size)).
Proof. apply Forall_forall. intros n Hn. apply list_elem_of_fmap in Hn as (i & -> & _). done. Qed.

(** C1 (evaluated on the code): the claim asks for 3 Records after
    [NewPBFTNetwork(5)], [RunPBFT("tx1")], [RunPBFT("tx2")].  Whatever the
    clock readings and whatever else the store holds, the run returns and the
    shared chain then has 11 Records: the genesis Record, five copies of the
    "tx1" Record and five copies of the "tx2" Record, one copy per node. *)
Theorem PBFT_two_rounds_five_nodes_eleven_records :
  forall (h0 : list PBFT.Blockchain) (now0 now1 now2 : string),
    let g := PBFT.NewBlock "Genesis Block" "" 0 now0 in
    let b1 := PBFT.NewBlock "tx1" (PBFT.Hash g) 1 now1 in
    let b2 := PBFT.NewBlock "tx2" (PBFT.Hash b1) 2 now2 in
    exists b h,
      (let* bc := PBFT.NewPBFTNetwork 5 now0 in
       PBFT.RunPBFT bc "tx1" now1 ;;;
       PBFT.RunPBFT bc "tx2" now2 ;;;
       deref bc) h0 = Returns b h
      /\ PBFT.Blocks b = g :: replicate 5 b1 ++ replicate 5 b2
      /\ length (PBFT.Blocks b) = 11%nat.
Proof.
  intros h0 now0 now1 now2 g b1 b2.
  set (a := length h0).
  set (nodes := map (fun i => PBFT.NewNode i (bool_decide (i = 0)) (Some a)) (seqZ 0 5)).
  assert (Hshared : Forall (fun n => PBFT.BlockchainPtr n = Some a) nodes)
    by apply PBFT_network_nodes_shared.
  assert (Hlen : length nodes = 5%nat) by reflexivity.
  assert (Hne : nodes <> []) by (intros E; by rewrite E in Hlen).
  assert (Hsize : 2 * len nodes <= max_int) by (unfold len; rewrite Hlen; done).
  set (c0 := PBFT.mkBlockchain [g] nodes).
  set (c1 := PBFT.mkBlockchain ([g] ++ replicate 5 b1) nodes).
  set (c2 := PBFT.mkBlockchain (([g] ++ replicate 5 b1) ++ replicate 5 b2) nodes).
  exists c2, (h0 ++ [c2]).
  split; [|split; [reflexivity|reflexivity]].
  unfold bind at 1. rewrite PBFT_NewPBFTNetwork_returns by done. fold a nodes g c0.
  unfold bind at 1.
  rewrite (PBFT_RunPBFT_shared (h0 ++ [c0]) a c0 g "tx1" now1);
    [|by apply list_lookup_middle|done..].
  cbn [PBFT.Nodes PBFT.Blocks c0]. rewrite Hlen.
  change (PBFT.NewBlock "tx1" (PBFT.Hash g) (wrap (PBFT.Index g + 1)) now1) with b1.
  fold c1. subst a. rewrite insert_alloc.
  unfold bind at 1.
  rewrite (PBFT_RunPBFT_shared (h0 ++ [c1]) (length h0) c1 b1 "tx2" now2);
    [|by apply list_lookup_middle|done..].
  cbn [PBFT.Nodes PBFT.Blocks c1]. rewrite Hlen.
  change (PBFT.NewBlock "tx2" (PBFT.Hash b1) (wrap (PBFT.Index b1 + 1)) now2) with b2.
  fold c2. rewrite insert_alloc.
  apply deref_alloc.
Qed.

(** C3 (evaluated on the code): the claim asks that in every reachable Ledger
    each Record's PrevHash is the Hash of the Record before it.  After
    [NewPBFTNetwork(5)] and one [RunPBFT("tx1")] (with the clock readings
    below) the chain holds the "tx1" Record five times in a row; the second
    copy's PrevHash is the genesis hash, not the hash of the copy before it. *)
Theorem PBFT_one_round_breaks_hash_links :
  exists b h,
    (let* bc := PBFT.NewPBFTNetwork 5 "2024-05-01 12:00:00.000000001 +0000 UTC m=+0.000012345" in
     PBFT.RunPBFT bc "tx1" "2024-05-01 12:00:00.000000002 +0000 UTC m=+0.000012346" ;;;
     deref bc) [] = Returns b h
    /\ length (PBFT.Blocks b) = 6%nat
    /\ ~ PBFT_chain_linked (PBFT.Blocks b).
Proof.
  eexists _, _. split; [vm_compute; reflexivity|]. split; [reflexivity|].
  intros Hlinked. specialize (Hlinked 1%nat _ _ eq_refl eq_refl).
  vm_compute in Hlinked. discriminate.
Qed.

(** ** Raft *)

Lemma Raft_VerifyBlock_readOnly n block : readOnly (Raft.VerifyBlock n block).
Proof. unfold Raft.VerifyBlock. solve_readOnly. Qed.

Lemma Raft_ProposeBlock_readOnly n data now : readOnly (Raft.ProposeBlock n data now).
Proof. unfold Raft.ProposeBlock. solve_readOnly. Qed.

Lemma Raft_BroadcastBlock_readOnly bc block : readOnly (Raft.BroadcastBlock bc block).
Proof.
  intros s r s' Hrun. unfold Raft.BroadcastBlock in Hrun.
  unfold bind at 1 in Hrun.
  destruct (deref bc s) as [b s1|e s1|s1] eqn:Hd; try discriminate.
  apply deref_readOnly in Hd. subst s1.
  unfold bind in Hrun.
  destruct (countLoop _ _ _ s) as [k s2|e s2|s2] eqn:Hc; try discriminate.
  apply countLoop_readOnly in Hc; [|intros; apply Raft_VerifyBlock_readOnly].
  unfold ret in Hrun. congruence.
Qed.

Lemma Raft_VerifyBlock_live h n block :
  Raft_live h n -> Raft.VerifyBlock n block h = Returns (Raft_approves h block n) h.
Proof.
  intros (b & prev & Hb & Hprev).
  unfold Raft_approves, Raft.VerifyBlock. unfold_m. rewrite Hb. unfold_m.
  rewrite Hprev. unfold_m. by repeat case_match.
Qed.

Lemma Raft_BroadcastBlock_threshold h a b block :
  h !! a = Some b ->
  Forall (Raft_live h) (Raft.Nodes b) ->
  len (Raft.Nodes b) <= max_int ->
  Raft.BroadcastBlock (Some a) block h
  = Returns (bool_decide (len (Raft.Nodes b) `div` 2
                          < Raft_approvals h block (Raft.Nodes b))) h.
Proof.
  intros Hb Hlive Hsize. unfold Raft.BroadcastBlock.
  unfold bind at 1. rewrite (deref_Some _ _ _ Hb).
  unfold bind. rewrite (countLoop_counts _ _ (Raft_approves h block)).
  - unfold ret, Raft_approvals. f_equal.
    rewrite Z.quot_div_nonneg by (unfold len; lia).
    apply bool_decide_ext. lia.
  - eapply Forall_impl; [exact Hlive|]. intros n Hn. by apply Raft_VerifyBlock_live.
  - lia.
  - lia.
Qed.

(** The spec's Raft scenario, run on the code with three clock readings:
    as in PBFT, each round appends one copy of the block per node. *)
Example Raft_two_rounds_five_nodes :
  exists b h,
    (let* bc := Raft.NewRaftNetwork 5 "2024-05-01 12:00:00.000000001 +0000 UTC m=+0.000012345" in
     let* elected := Raft.RequestVote (0%nat, 0%nat) in
     Raft.LeaderLead bc "block1" "2024-05-01 12:00:00.000000002 +0000 UTC m=+0.000012346" ;;;
     Raft.LeaderLead bc "block2" "2024-05-01 12:00:00.000000003 +0000 UTC m=+0.000012347" ;;;
     deref bc) [] = Returns b h
    /\ map Raft.Data (Raft.Blocks b)
       = "Genesis Block" :: replicate 5 "block1" ++ replicate 5 "block2".
Proof. eexists _, _. split; vm_compute; reflexivity. Qed.

(** ** Paxos *)

Lemma Paxos_BroadcastProposal_readOnly bc proposal :
  readOnly (Paxos.BroadcastProposal bc proposal).
Proof.
  intros s r s' Hrun. unfold Paxos.BroadcastProposal in Hrun.
  unfold bind at 1 in Hrun.
  destruct (deref bc s) as [b s1|e s1|s1] eqn:Hd; try discriminate.
  apply deref_readOnly in Hd. subst s1.
  unfold bind in Hrun.
  destruct (countLoop _ _ _ s) as [k s2|e s2|s2] eqn:Hc; try discriminate.
  apply countLoop_readOnly in Hc; [|intros x; solve_readOnly].
  unfold ret in Hrun. congruence.
Qed.

Lemma Paxos_BroadcastProposal_threshold (h : list Paxos.Blockchain) a b proposal :
  h !! a = Some b ->
  len (Paxos.Nodes b) <= max_int ->
  Paxos.BroadcastProposal (Some a) proposal h
  = Returns (bool_decide (len (Paxos.Nodes b) `div` 2
                          < Paxos_approvals proposal (Paxos.Nodes b))) h.
Proof.
  intros Hb Hsize. unfold Paxos.BroadcastProposal.
  unfold bind at 1. rewrite (deref_Some _ _ _ Hb).
  unfold bind.
  rewrite (countLoop_counts _ _ (fun n => Paxos.AcceptProposal n proposal)).
  - unfold ret, Paxos_approvals. f_equal.
    rewrite Z.quot_div_nonneg by (unfold len; lia).
    apply bool_decide_ext. lia.
  - by apply Forall_forall.
  - lia.
  - lia.
Qed.

(** [RunPaxos] on a network none of whose nodes has recorded the proposal
    number: no node accepts, and the run ends with the store as it was. *)
Lemma Paxos_RunPaxos_unrecorded (h : list Paxos.Blockchain) a b data proposalID nows :
  h !! a = Some b ->
  Paxos.Nodes b <> [] ->
  Forall (fun n => Paxos.AcceptProposal n (Paxos.mkProposal proposalID data false) = false)
         (Paxos.Nodes b) ->
  len (Paxos.Nodes b) <= max_int ->
  Paxos.RunPaxos (Some a) data proposalID nows h = Returns tt h.
Proof.
  intros Hb Hne Hno Hsize. unfold Paxos.RunPaxos.
  unfold bind at 1. rewrite (deref_Some _ _ _ Hb).
  destruct (Paxos.Nodes b) as [|proposer rest] eqn:Hnodes; [done|].
  cbn [lookup list_lookup orPanic]. unfold bind at 1, ret at 1.
  cbn [Paxos.Propose]. unfold bind.
  rewrite (Paxos_BroadcastProposal_threshold h a b _ Hb) by (by rewrite Hnodes).
  unfold Paxos_approvals. rewrite Hnodes. rewrite filter_none.
  - rewrite bool_decide_eq_false_2; [done|].
    pose proof (Z.div_pos (len (proposer :: rest)) 2) as Hhalf.
    unfold len in *. cbn [length] in *. lia.
  - eapply Forall_impl; [exact Hno|]. cbn. intros n ->. done.
Qed.

Lemma Paxos_NewPaxosNetwork_returns (h0 : list Paxos.Blockchain) size now :
  0 <= size -> Paxos.NodeSize * size <= maxAlloc ->
  Paxos.NewPaxosNetwork size now h0
  = Returns (Some (length h0))
      (h0 ++ [Paxos.mkBlockchain
                [Paxos.NewBlock "Genesis Block" "" 0 now]
                (map (fun i => Paxos.NewNode i (Some (length h0))) (seqZ 0 size))]).
Proof.
  intros Hsize Hmem. unfold Paxos.NewPaxosNetwork, Paxos.NewBlockchain.
  unfold bind at 1, alloc.
  rewrite bool_decide_eq_false_2 by (unfold makesliceRefuses; lia).
  unfold bind at 1. rewrite deref_alloc.
  unfold bind, store, ret. cbn [Paxos.Blocks]. by rewrite insert_alloc.
Qed.

(** C2 (evaluated on the code): the claim asks for 3 Records after
    [NewPaxosNetwork(5)], [RunPaxos("d1",1)], [RunPaxos("d2",2)].  Whatever
    the clock readings and whatever else the store holds, the run returns and
    the chain still holds the genesis Record alone: [RunPaxos] records the
    proposal in its local copy of node 0, so no node of the network accepts
    it and neither round commits. *)
Theorem Paxos_two_rounds_five_nodes_genesis_only :
  forall (h0 : list Paxos.Blockchain) (now0 : string) (nows1 nows2 : nat -> string),
    exists b h,
      (let* bc := Paxos.NewPaxosNetwork 5 now0 in
       Paxos.RunPaxos bc "d1" 1 nows1 ;;;
       Paxos.RunPaxos bc "d2" 2 nows2 ;;;
       deref bc) h0 = Returns b h
      /\ Paxos.Blocks b = [Paxos.NewBlock "Genesis Block" "" 0 now0]
      /\ length (Paxos.Blocks b) = 1%nat.
Proof.
  intros h0 now0 nows1 nows2.
  set (a := length h0).
  set (nodes := map (fun i => Paxos.NewNode i (Some a)) (seqZ 0 5)).
  set (c0 := Paxos.mkBlockchain [Paxos.NewBlock "Genesis Block" "" 0 now0] nodes).
  assert (Hlen : length nodes = 5%nat) by reflexivity.
  assert (Hne : nodes <> []) by (intros E; by rewrite E in Hlen).
  assert (Hno : forall p, Forall (fun n => Paxos.AcceptProposal n p = false) nodes).
  { intros p. apply Forall_forall. intros n Hn.
    apply list_elem_of_fmap in Hn as (i & -> & _). done. }
  assert (Hsize : len nodes <= max_int) by (unfold len; rewrite Hlen; done).
  assert (Hc0 : (h0 ++ [c0]) !! a = Some c0) by (by apply list_lookup_middle).
  exists c0, (h0 ++ [c0]). split; [|split; reflexivity].
  unfold bind at 1. rewrite Paxos_NewPaxosNetwork_returns by done. fold a nodes c0.
  unfold bind at 1. rewrite (Paxos_RunPaxos_unrecorded _ a c0) by done.
  unfold bind at 1. rewrite (Paxos_RunPaxos_unrecorded _ a c0) by done.
  apply deref_alloc.
Qed.

(** ** The quorum rules (all three broadcasts) *)

(** C6: each broadcast returns without touching the store, and its verdict is
    the quorum rule on [approvals], the number of nodes whose check passes,
    and [total], the number of nodes: PBFT passes exactly when
    [approvals >= floor(2*total/3)], Raft and Paxos exactly when
    [approvals > floor(total/2)], so that a tie of exactly half fails. *)
Theorem broadcast_quorum_rules :
  forall (hp : list PBFT.Blockchain) (ap : nat) (bp : PBFT.Blockchain) (blockp : PBFT.Block)
         (hr : list Raft.Blockchain) (ar : nat) (br : Raft.Blockchain) (blockr : Raft.Block)
         (hx : list Paxos.Blockchain) (ax : nat) (bx : Paxos.Blockchain)
         (proposal : Paxos.Proposal),
    hp !! ap = Some bp ->
    Forall (PBFT_live hp) (PBFT.Nodes bp) ->
    2 * len (PBFT.Nodes bp) <= max_int ->
    hr !! ar = Some br ->
    Forall (Raft_live hr) (Raft.Nodes br) ->
    len (Raft.Nodes br) <= max_int ->
    hx !! ax = Some bx ->
    len (Paxos.Nodes bx) <= max_int ->
    PBFT.BroadcastBlock (Some ap) blockp hp
    = Returns (bool_decide ((2 * len (PBFT.Nodes bp)) `div` 3
                            <= PBFT_approvals hp blockp (PBFT.Nodes bp))) hp
    /\ Raft.BroadcastBlock (Some ar) blockr hr
       = Returns (bool_decide (len (Raft.Nodes br) `div` 2
                               < Raft_approvals hr blockr (Raft.Nodes br))) hr
    /\ Paxos.BroadcastProposal (Some ax) proposal hx
       = Returns (bool_decide (len (Paxos.Nodes bx) `div` 2
                               < Paxos_approvals proposal (Paxos.Nodes bx))) hx
    /\ (2 * Raft_approvals hr blockr (Raft.Nodes br) = len (Raft.Nodes br) ->
        Raft.BroadcastBlock (Some ar) blockr hr = Returns false hr)
    /\ (2 * Paxos_approvals proposal (Paxos.Nodes bx) = len (Paxos.Nodes bx) ->
        Paxos.BroadcastProposal (Some ax) proposal hx = Returns false hx).
Proof.
  intros hp ap bp blockp hr ar br blockr hx ax bx proposal
         Hbp Hlivep Hsizep Hbr Hliver Hsizer Hbx Hsizex.
  pose proof (PBFT_BroadcastBlock_threshold hp ap bp blockp Hbp Hlivep Hsizep) as Hp.
  pose proof (Raft_BroadcastBlock_threshold hr ar br blockr Hbr Hliver Hsizer) as Hr.
  pose proof (Paxos_BroadcastProposal_threshold hx ax bx proposal Hbx Hsizex) as Hx.
  repeat split; try assumption.
  - intros Htie. rewrite Hr. f_equal. apply bool_decide_eq_false_2.
    rewrite <- Htie. rewrite Z.mul_comm, Z.div_mul by lia. lia.
  - intros Htie. rewrite Hx. f_equal. apply bool_decide_eq_false_2.
    rewrite <- Htie. rewrite Z.mul_comm, Z.div_mul by lia. lia.
Qed.

Lemma broadcast_quorum_rules_witness :
  PBFT.BroadcastBlock (Some 0%nat) PBFT_stray PBFT_five
  = Returns (bool_decide ((2 * len (PBFT.Nodes PBFT_five_chain)) `div` 3
                          <= PBFT_approvals PBFT_five PBFT_stray
                               (PBFT.Nodes PBFT_five_chain))) PBFT_five
  /\ Raft.BroadcastBlock (Some 0%nat) Raft_stray Raft_four
     = Returns (bool_decide (len (Raft.Nodes Raft_four_chain) `div` 2
                             < Raft_approvals Raft_four Raft_stray
                                 (Raft.Nodes Raft_four_chain))) Raft_four
  /\ Paxos.BroadcastProposal (Some 0%nat) (Paxos.mkProposal 1 "d1" false) Paxos_five
     = Returns (bool_decide (len (Paxos.Nodes Paxos_five_chain) `div` 2
                             < Paxos_approvals (Paxos.mkProposal 1 "d1" false)
                                 (Paxos.Nodes Paxos_five_chain))) Paxos_five
  /\ (2 * Raft_approvals Raft_four Raft_stray (Raft.Nodes Raft_four_chain)
      = len (Raft.Nodes Raft_four_chain) ->
      Raft.BroadcastBlock (Some 0%nat) Raft_stray Raft_four = Returns false Raft_four)
  /\ (2 * Paxos_approvals (Paxos.mkProposal 1 "d1" false) (Paxos.Nodes Paxos_five_chain)
      = len (Paxos.Nodes Paxos_five_chain) ->
      Paxos.BroadcastProposal (Some 0%nat) (Paxos.mkProposal 1 "d1" false) Paxos_five
      = Returns false Paxos_five).
Proof.
  apply (broadcast_quorum_rules PBFT_five 0 PBFT_five_chain PBFT_stray
                                Raft_four 0 Raft_four_chain Raft_stray
                                Paxos_five 0 Paxos_five_chain (Paxos.mkProposal 1 "d1" false)).
  - reflexivity.
  - repeat constructor; eexists _, _; split; reflexivity.
  - vm_compute. discriminate.
  - reflexivity.
  - repeat constructor; eexists _, _; split; reflexivity.
  - vm_compute. discriminate.
  - reflexivity.
  - vm_compute. discriminate.
Defined.

(** ** A failed quorum *)

(** C7: when the broadcast step of [RunPBFT], [Lead] or [RunPaxos] returns
    false, the operation returns with the whole store, and so the Blocks of
    every chain in it, exactly as before the call. *)
Theorem failed_quorum_leaves_ledger :
  forall (hp hp1 hp2 : list PBFT.Blockchain) (ap : nat) (bp : PBFT.Blockchain)
         (primary : PBFT.Node) (datap nowp : string) (newBlockp : PBFT.Block)
         (hr hr1 hr2 : list Raft.Blockchain) (n : Raft.Node)
         (datar nowr : string) (newBlockr : Raft.Block)
         (hx hx1 : list Paxos.Blockchain) (ax : nat) (bx : Paxos.Blockchain)
         (proposer : Paxos.Node) (datax : string) (proposalID : Z) (nows : nat -> string),
    hp !! ap = Some bp ->
    PBFT.Nodes bp !! 0%nat = Some primary ->
    PBFT.ProposeBlock primary datap nowp hp = Returns newBlockp hp1 ->
    PBFT.BroadcastBlock (Some ap) newBlockp hp1 = Returns false hp2 ->
    Raft.IsLeader n = true ->
    Raft.ProposeBlock n datar nowr hr = Returns newBlockr hr1 ->
    Raft.BroadcastBlock (Raft.BlockchainPtr n) newBlockr hr1 = Returns false hr2 ->
    hx !! ax = Some bx ->
    Paxos.Nodes bx !! 0%nat = Some proposer ->
    Paxos.BroadcastProposal (Some ax) (fst (Paxos.Propose proposer datax proposalID)) hx
    = Returns false hx1 ->
    PBFT.RunPBFT (Some ap) datap nowp hp = Returns tt hp
    /\ Raft.Lead n datar nowr hr = Returns tt hr
    /\ Paxos.RunPaxos (Some ax) datax proposalID nows hx = Returns tt hx.
Proof.
  intros hp hp1 hp2 ap bp primary datap nowp newBlockp
         hr hr1 hr2 n datar nowr newBlockr
         hx hx1 ax bx proposer datax proposalID nows
         Hbp Hprimary Hpropp Hbcastp Hleader Hpropr Hbcastr Hbx Hproposer Hbcastx.
  split; [|split].
  - pose proof (PBFT_ProposeBlock_readOnly _ _ _ _ _ _ Hpropp) as ->.
    pose proof (PBFT_BroadcastBlock_readOnly _ _ _ _ _ Hbcastp) as ->.
    unfold PBFT.RunPBFT. unfold bind at 1. rewrite (deref_Some _ _ _ Hbp).
    rewrite Hprimary. cbn [orPanic]. unfold bind at 1, ret at 1.
    unfold bind at 1. rewrite Hpropp. unfold bind. by rewrite Hbcastp.
  - pose proof (Raft_ProposeBlock_readOnly _ _ _ _ _ _ Hpropr) as ->.
    pose proof (Raft_BroadcastBlock_readOnly _ _ _ _ _ Hbcastr) as ->.
    unfold Raft.Lead. rewrite Hleader.
    unfold bind at 1. rewrite Hpropr. unfold bind. by rewrite Hbcastr.
  - pose proof (Paxos_BroadcastProposal_readOnly _ _ _ _ _ Hbcastx) as ->.
    unfold Paxos.RunPaxos. unfold bind at 1. rewrite (deref_Some _ _ _ Hbx).
    rewrite Hproposer. cbn [orPanic]. unfold bind at 1, ret at 1.
    cbn [Paxos.Propose fst] in *. unfold bind. by rewrite Hbcastx.
Qed.

Lemma failed_quorum_leaves_ledger_witness :
  PBFT.RunPBFT (Some 0%nat) "tx1" clock1 PBFT_split = Returns tt PBFT_split
  /\ Raft.Lead (Raft.mkNode 0 true (Some 0%nat)) "block1" clock1 Raft_split
     = Returns tt Raft_split
  /\ Paxos.RunPaxos (Some 0%nat) "d1" 1 (fun _ => clock1) Paxos_five = Returns tt Paxos_five.
Proof.
  apply (failed_quorum_leaves_ledger
           PBFT_split PBFT_split PBFT_split 0 PBFT_split_chain
           (PBFT.NewNode 0 true (Some 0%nat)) "tx1" clock1 PBFT_split_proposal
           Raft_split Raft_split Raft_split (Raft.mkNode 0 true (Some 0%nat))
           "block1" clock1 Raft_split_proposal
           Paxos_five Paxos_five 0 Paxos_five_chain (Paxos.NewNode 0 (Some 0%nat))
           "d1" 1 (fun _ => clock1)).
  - reflexivity.
  - reflexivity.
  - vm_compute. reflexivity.
  - vm_compute. reflexivity.
  - reflexivity.
  - vm_compute. reflexivity.
  - vm_compute. reflexivity.
  - reflexivity.
  - reflexivity.
  - vm_compute. reflexivity.
Defined.

(** The tie of the Raft instance: two approvals out of four nodes fail. *)
Example Raft_tie_fails :
  Raft_approvals Raft_split Raft_split_proposal [Raft.mkNode 0 true (Some 0%nat);
     Raft.NewNode 1 (Some 0%nat); Raft.NewNode 2 (Some 1%nat); Raft.NewNode 3 (Some 1%nat)] = 2
  /\ Raft.BroadcastBlock (Some 0%nat) Raft_split_proposal Raft_split
     = Returns false Raft_split.
Proof. split; vm_compute; reflexivity. Qed.

(** ** Proof of Stake *)

Lemma stake_sum_app l1 l2 : stake_sum (l1 ++ l2) = stake_sum l1 + stake_sum l2.
Proof. induction l1 as [|x l1 IH]; cbn; [done|]. rewrite IH. lia. Qed.

Lemma stake_sum_perm l1 l2 : l1 ≡ₚ l2 -> stake_sum l1 = stake_sum l2.
Proof. induction 1; cbn; lia. Qed.

Lemma stake_sum_nonneg l : Forall (fun x => 0 <= snd x) l -> 0 <= stake_sum l.
Proof. induction 1; cbn; lia. Qed.

Lemma listed_stake_perm l1 l2 v : l1 ≡ₚ l2 -> listed_stake l1 v = listed_stake l2 v.
Proof. intros Hp. unfold listed_stake. apply stake_sum_perm. by rewrite Hp. Qed.

Lemma listed_stake_map (m : gmap string Z) v :
  listed_stake (map_to_list m) v = stake_of m v.
Proof.
  unfold stake_of. induction m as [|i x m Hi IH] using map_ind.
  - by rewrite map_to_list_empty, lookup_empty.
  - rewrite (listed_stake_perm _ _ v (map_to_list_insert m i x Hi)).
    unfold listed_stake in *. rewrite filter_cons. cbn [fst].
    destruct (decide (i = v)) as [->|Hne].
    + cbn [stake_sum snd].
      rewrite IH, Hi, lookup_insert_eq. cbn. lia.
    + by rewrite IH, lookup_insert_ne.
Qed.

Lemma PoS_sumLoop_wrap l acc : wrap (PoS.sumLoop l acc) = wrap (acc + stake_sum l).
Proof.
  revert acc. induction l as [|[v s] l IH]; intros acc; cbn.
  - f_equal. lia.
  - rewrite IH, wrap_wrap_add. f_equal. lia.
Qed.

Lemma PoS_sumLoop_range l acc :
  min_int <= acc <= max_int -> min_int <= PoS.sumLoop l acc <= max_int.
Proof.
  revert acc. induction l as [|[v s] l IH]; intros acc Hacc; cbn; [done|].
  apply IH, wrap_range.
Qed.

(** The first loop computes the wrapped sum, whatever the visiting order. *)
Lemma PoS_sumLoop_total l : PoS.sumLoop l 0 = wrap (stake_sum l).
Proof.
  rewrite <- (wrap_id (PoS.sumLoop l 0)) by (by apply PoS_sumLoop_range).
  by rewrite PoS_sumLoop_wrap.
Qed.

Lemma filter_ext_Forall {A} (P Q : A -> Prop)
    `{!forall x, Decision (P x), !forall x, Decision (Q x)} (l : list A) :
  Forall (fun x => P x <-> Q x) l -> filter P l = filter Q l.
Proof.
  induction 1 as [|x l Hx _ IH]; [done|].
  rewrite !filter_cons, IH. destruct (decide (P x)), (decide (Q x)); tauto.
Qed.

(** The draws of [acc, acc + sum) on which the walk returns [v] are as many
    as the stake listed under [v]. *)
Lemma PoS_walk_count l v :
  Forall (fun x => 0 <= snd x) l ->
  forall acc, 0 <= acc -> acc + stake_sum l <= max_int ->
    len (filter (fun pick => PoS.walkLoop l acc pick = Some v) (seqZ acc (stake_sum l)))
    = listed_stake l v.
Proof.
  induction 1 as [|[v0 s0] rest Hs0 Hrest IH]; intros acc Hacc Hmax.
  - done.
  - cbn [snd] in Hs0. pose proof (stake_sum_nonneg _ Hrest) as Hsum.
    cbn [stake_sum snd] in *.
    assert (Hw : wrap (acc + s0) = acc + s0)
      by (apply wrap_id; unfold min_int, int_bits; lia).
    rewrite seqZ_app by lia. rewrite filter_app. unfold len. rewrite length_app.
    rewrite (filter_ext_Forall _ (fun _ => v0 = v) (seqZ acc s0)); cycle 1.
    { apply Forall_seqZ. intros p Hp. cbn [PoS.walkLoop]. rewrite Hw.
      rewrite bool_decide_eq_true_2 by lia. split; congruence. }
    rewrite (filter_ext_Forall _ (fun pick => PoS.walkLoop rest (acc + s0) pick = Some v)
                               (seqZ (acc + s0) (stake_sum rest))); cycle 1.
    { apply Forall_seqZ. intros p Hp. cbn [PoS.walkLoop]. rewrite Hw.
      by rewrite bool_decide_eq_false_2 by lia. }
    specialize (IH (acc + s0) ltac:(lia) ltac:(lia)). unfold len in IH.
    rewrite Nat2Z.inj_add, IH.
    unfold listed_stake. rewrite filter_cons. cbn [fst].
    destruct (decide (v0 = v)) as [->|Hne].
    + rewrite filter_all by (by apply Forall_forall).
      rewrite length_seqZ. cbn [stake_sum snd]. lia.
    + rewrite filter_none by (by apply Forall_forall). cbn [length]. lia.
Qed.

(** The walk returns the first participant whose running sum exceeds the
    draw; with a draw below the total it does not run off the end. *)
Lemma PoS_walk_first l pick :
  Forall (fun x => 0 <= snd x) l ->
  forall acc, 0 <= acc -> acc + stake_sum l <= max_int ->
    acc <= pick < acc + stake_sum l ->
    exists v pre s post,
      PoS.walkLoop l acc pick = Some v
      /\ l = pre ++ (v, s) :: post
      /\ acc + stake_sum pre + s > pick
      /\ forall pre' x post', pre = pre' ++ x :: post' -> acc + stake_sum pre' + snd x <= pick.
Proof.
  induction 1 as [|[v0 s0] rest Hs0 Hrest IH]; intros acc Hacc Hmax Hpick.
  - cbn in Hpick. lia.
  - cbn [snd] in Hs0. pose proof (stake_sum_nonneg _ Hrest) as Hsum.
    cbn [stake_sum snd] in *.
    assert (Hw : wrap (acc + s0) = acc + s0)
      by (apply wrap_id; unfold min_int, int_bits; lia).
    cbn [PoS.walkLoop]. rewrite Hw.
    destruct (decide (acc + s0 > pick)) as [Hgt|Hle].
    + exists v0, [], s0, rest. rewrite bool_decide_eq_true_2 by done.
      repeat split; [cbn; lia|]. intros pre' x post' E. by destruct pre'.
    + rewrite bool_decide_eq_false_2 by done.
      destruct (IH (acc + s0)) as (v & pre & s & post & Hwalk & -> & Hex & Hfirst); [lia..|].
      exists v, ((v0, s0) :: pre), s, post. repeat split; [done|cbn; lia|].
      intros pre' x post' E. destruct pre' as [|y pre'']; cbn in E.
      * injection E as <- _. cbn. lia.
      * injection E as <- E. specialize (Hfirst _ _ _ E). cbn. lia.
Qed.

Lemma PoS_SelectValidator_walk bc order1 order2 pick :
  0 < wrap (stake_sum order1) ->
  PoS.SelectValidator order1 order2 pick bc
  = Returns (default "" (PoS.walkLoop order2 0 pick)) bc.
Proof.
  intros Hpos. unfold PoS.SelectValidator, PoS.Intn. rewrite PoS_sumLoop_total.
  rewrite bool_decide_eq_false_2 by lia. unfold bind, ret.
  by destruct (PoS.walkLoop order2 0 pick).
Qed.

Lemma PoS_enumeration_nonneg (m : gmap string Z) order :
  PoS.enumerates order m ->
  (forall v s, m !! v = Some s -> 0 <= s) ->
  Forall (fun x => 0 <= snd x) order.
Proof.
  intros Henum Hnonneg. apply Forall_forall. intros [v s] Hin.
  rewrite Henum in Hin. apply elem_of_map_to_list in Hin. cbn. eauto.
Qed.

(** C8, amended: with all stakes non-negative and their sum [T] positive and
    within [int], for every visiting order of the two loops and every draw in
    [0, T) [SelectValidator] returns, from inside the walk, the first
    participant whose running sum exceeds the draw; and for each name [v]
    exactly [stake(v)] of the [T] draws select [v]. *)
Theorem PoS_selection_proportional_to_stake :
  forall (bc : PoS.Blockchain) (order1 order2 : list (string * Z)),
    PoS.enumerates order1 (PoS.Stakes bc) ->
    PoS.enumerates order2 (PoS.Stakes bc) ->
    (forall v s, PoS.Stakes bc !! v = Some s -> 0 <= s) ->
    0 < total_stake (PoS.Stakes bc) <= max_int ->
    (forall pick, 0 <= pick < total_stake (PoS.Stakes bc) ->
       exists v, PoS.SelectValidator order1 order2 pick bc = Returns v bc
                 /\ PoS.walkLoop order2 0 pick = Some v
                 /\ first_exceeding order2 pick v)
    /\ (forall v, draws_selecting bc order1 order2 (total_stake (PoS.Stakes bc)) v
                  = stake_of (PoS.Stakes bc) v).
Proof.
  intros bc order1 order2 Henum1 Henum2 Hnonneg HT.
  unfold total_stake in *.
  pose proof (stake_sum_perm _ _ Henum1) as Hsum1.
  pose proof (stake_sum_perm _ _ Henum2) as Hsum2.
  pose proof (PoS_enumeration_nonneg _ _ Henum2 Hnonneg) as Hnn2.
  assert (Hpos : 0 < wrap (stake_sum order1)).
  { rewrite wrap_id; unfold min_int, int_bits; lia. }
  assert (Hwalk : forall pick, 0 <= pick < stake_sum order2 ->
            exists v, PoS.walkLoop order2 0 pick = Some v /\ first_exceeding order2 pick v).
  { intros pick Hpick.
    destruct (PoS_walk_first order2 pick Hnn2 0) as (v & pre & s & post & Hw & E & Hex & Hfirst);
      [lia..|].
    exists v. split; [done|]. exists pre, s, post. repeat split; [done|lia|].
    intros pre' x post' E'. specialize (Hfirst _ _ _ E'). lia. }
  split.
  - intros pick Hpick. destruct (Hwalk pick) as (v & Hw & Hfirst); [lia|].
    exists v. rewrite PoS_SelectValidator_walk by done. by rewrite Hw.
  - intros v. unfold draws_selecting. rewrite <- Hsum2.
    rewrite (filter_ext_Forall _ (fun pick => PoS.walkLoop order2 0 pick = Some v)).
    + rewrite PoS_walk_count by (done || lia).
      by rewrite (listed_stake_perm _ _ v Henum2), listed_stake_map.
    + apply Forall_seqZ. intros pick Hpick.
      destruct (Hwalk pick) as (v' & Hw & _); [lia|].
      rewrite PoS_SelectValidator_walk by done. rewrite Hw. cbn. done.
Qed.

Lemma PoS_selection_proportional_to_stake_witness :
  (forall pick, 0 <= pick < total_stake (PoS.Stakes PoS_test_chain) ->
     exists v, PoS.SelectValidator PoS_test_order PoS_test_order pick PoS_test_chain
               = Returns v PoS_test_chain
               /\ PoS.walkLoop PoS_test_order 0 pick = Some v
               /\ first_exceeding PoS_test_order pick v)
  /\ (forall v, draws_selecting PoS_test_chain PoS_test_order PoS_test_order
                  (total_stake (PoS.Stakes PoS_test_chain)) v
                = stake_of (PoS.Stakes PoS_test_chain) v).
Proof.
  apply (PoS_selection_proportional_to_stake PoS_test_chain PoS_test_order PoS_test_order).
  - vm_compute. reflexivity.
  - vm_compute. reflexivity.
  - intros v s Hv. apply elem_of_map_to_list in Hv.
    vm_compute in Hv. set_unfold. destruct Hv as [Hv|[Hv|[]]]; simplify_eq; lia.
  - vm_compute. split; [reflexivity | discriminate].
Defined.

Example PoS_test_draws :
  draws_selecting PoS_test_chain PoS_test_order PoS_test_order 100 "Alice" = 70
  /\ draws_selecting PoS_test_chain PoS_test_order PoS_test_order 100 "Bob" = 30.
Proof. split; vm_compute; reflexivity. Qed.

(** Stakes below zero, which the Proof of Stake strategy does not take, are
    not counted right either: the stakes 5 and -2 sum to 3, the order A, B
    is an enumeration of the table, and all 3 draws select A, although A's
    stake is 5. *)
Example PoS_negative_stake_not_proportional :
  PoS.enumerates PoS_negative_order (PoS.Stakes PoS_negative_chain)
  /\ total_stake (PoS.Stakes PoS_negative_chain) = 3
  /\ stake_of (PoS.Stakes PoS_negative_chain) "A" = 5
  /\ draws_selecting PoS_negative_chain PoS_negative_order PoS_negative_order 3 "A" = 3
  /\ draws_selecting PoS_negative_chain PoS_negative_order PoS_negative_order
       (total_stake (PoS.Stakes PoS_negative_chain)) "A"
     <> stake_of (PoS.Stakes PoS_negative_chain) "A".
Proof.
  split; [vm_compute; reflexivity|].
  repeat split; try (vm_compute; reflexivity).
  vm_compute. discriminate.
Qed.

(** C8 as stated does not hold.  The stakes 2^62 and 2^62 are not negative and
    their total T = 2^63 is positive, and the order Alice, Bob is an
    enumeration of the table; but T is one more than the largest [int], the
    sum the code computes wraps to the least [int], and [rand.Intn] panics on
    it.  So for every draw, those of [0, T) among them, [SelectValidator]
    panics and selects nobody: no draw returns the first participant whose
    running sum exceeds it. *)
Lemma PoS_overflowing_total_selects_nobody :
  (forall v s, PoS.Stakes PoS_overflow_chain !! v = Some s -> 0 <= s)
  /\ PoS.enumerates PoS_overflow_order (PoS.Stakes PoS_overflow_chain)
  /\ total_stake (PoS.Stakes PoS_overflow_chain) = max_int + 1
  /\ (forall pick,
        PoS.SelectValidator PoS_overflow_order PoS_overflow_order pick PoS_overflow_chain
        = Panics IntnInvalidArgument PoS_overflow_chain)
  /\ ~ (forall pick, 0 <= pick < total_stake (PoS.Stakes PoS_overflow_chain) ->
          exists v,
            PoS.SelectValidator PoS_overflow_order PoS_overflow_order pick PoS_overflow_chain
            = Returns v PoS_overflow_chain
            /\ PoS.walkLoop PoS_overflow_order 0 pick = Some v
            /\ first_exceeding PoS_overflow_order pick v).
Proof.
  assert (Hpanic : forall pick,
    PoS.SelectValidator PoS_overflow_order PoS_overflow_order pick PoS_overflow_chain
    = Panics IntnInvalidArgument PoS_overflow_chain) by (intros pick; reflexivity).
  assert (HT : total_stake (PoS.Stakes PoS_overflow_chain) = max_int + 1)
    by (vm_compute; reflexivity).
  split; [|split; [|split; [|split]]].
  - intros v s Hv. apply elem_of_map_to_list in Hv.
    vm_compute in Hv. set_unfold. destruct Hv as [Hv|[Hv|[]]]; simplify_eq; lia.
  - vm_compute. reflexivity.
  - exact HT.
  - exact Hpanic.
  - intros Hall. destruct (Hall 0) as (v & Hsel & _).
    + rewrite HT. unfold max_int, int_bits. lia.
    + rewrite Hpanic in Hsel. discriminate.
Qed.

(** C9: when the stakes sum to zero, [SelectValidator] panics in
    [rand.Intn] (the NoStakeError of the spec); [AddBlock] on a chain with
    its genesis Record passes that panic on and leaves the chain, its Blocks
    included, as it was. *)
Theorem PoS_zero_total_stake_fails :
  forall (bc : PoS.Blockchain) (data now : string)
         (order1 order2 : list (string * Z)) (pick : Z),
    PoS.enumerates order1 (PoS.Stakes bc) ->
    total_stake (PoS.Stakes bc) = 0 ->
    PoS.Blocks bc <> [] ->
    PoS.SelectValidator order1 order2 pick bc = Panics IntnInvalidArgument bc
    /\ PoS.AddBlock data now order1 order2 pick bc = Panics IntnInvalidArgument bc.
Proof.
  intros bc data now order1 order2 pick Henum Hzero Hgenesis.
  assert (Hsel : PoS.SelectValidator order1 order2 pick bc = Panics IntnInvalidArgument bc).
  { unfold PoS.SelectValidator, PoS.Intn. rewrite PoS_sumLoop_total.
    unfold total_stake in Hzero. rewrite (stake_sum_perm _ _ Henum), Hzero.
    rewrite wrap_id by done. rewrite bool_decide_eq_true_2 by lia. done. }
  split; [done|].
  destruct (proj2 (last_is_Some (PoS.Blocks bc)) Hgenesis) as [prevBlock Hprev].
  unfold PoS.AddBlock. unfold bind at 1, get.
  unfold bind at 1, lastElem. rewrite Hprev. cbn [orPanic]. unfold ret at 1.
  unfold bind. by rewrite Hsel.
Qed.

Lemma PoS_zero_total_stake_fails_witness :
  PoS.SelectValidator [("Alice", 0); ("Bob", 0)] [("Alice", 0); ("Bob", 0)] 0 PoS_zero_chain
  = Panics IntnInvalidArgument PoS_zero_chain
  /\ PoS.AddBlock "Test block 1" clock1 [("Alice", 0); ("Bob", 0)] [("Alice", 0); ("Bob", 0)] 0
       PoS_zero_chain
     = Panics IntnInvalidArgument PoS_zero_chain.
Proof.
  apply (PoS_zero_total_stake_fails PoS_zero_chain "Test block 1" clock1).
  - vm_compute. reflexivity.
  - vm_compute. reflexivity.
  - discriminate.
Defined.

(** ** Proof of Stake: the chain grows by one linked Record *)

Lemma PoS_chain_linked_snoc blocks prev b :
  PoS_chain_linked blocks ->
  last blocks = Some prev ->
  PoS.PrevHash b = PoS.Hash prev ->
  PoS_chain_linked (blocks ++ [b]).
Proof.
  intros Hlinked Hlast Hb i cur prev' Hcur Hprev'.
  apply last_Some in Hlast as [pre ->].
  destruct (decide (Datatypes.S i < length (pre ++ [prev]))%nat) as [Hlt|Hge].
  - rewrite lookup_app_l in Hcur by done. rewrite lookup_app_l in Hprev' by lia. eauto.
  - rewrite length_app in Hge. cbn in Hge.
    assert (i = length pre) as -> by (apply lookup_lt_Some in Hcur;
      rewrite !length_app in Hcur; cbn in Hcur; lia).
    rewrite <- app_assoc in Hcur, Hprev'. cbn in Hcur, Hprev'.
    rewrite list_lookup_middle in Hprev' by done.
    rewrite (lookup_app_r pre) in Hcur by lia.
    replace (Datatypes.S (length pre) - length pre)%nat with 1%nat in Hcur by lia.
    cbn in Hcur. by simplify_eq.
Qed.

Lemma PoS_AddBlock_linked bc data now order1 order2 pick :
  PoS.enumerates order1 (PoS.Stakes bc) ->
  0 < total_stake (PoS.Stakes bc) <= max_int ->
  PoS.Blocks bc <> [] ->
  PoS_chain_linked (PoS.Blocks bc) ->
  exists b,
    PoS.AddBlock data now order1 order2 pick bc
    = Returns tt (PoS.mkBlockchain (PoS.Blocks bc ++ [b]) (PoS.Validators bc) (PoS.Stakes bc))
    /\ PoS.Data b = data
    /\ PoS.CalculateHash b = PoS.Hash b
    /\ PoS_chain_linked (PoS.Blocks bc ++ [b]).
Proof.
  intros Henum HT Hgenesis Hlinked.
  destruct (proj2 (last_is_Some (PoS.Blocks bc)) Hgenesis) as [prevBlock Hprev].
  assert (Hpos : 0 < wrap (stake_sum order1)).
  { unfold total_stake in HT. rewrite (stake_sum_perm _ _ Henum).
    rewrite wrap_id; unfold min_int, int_bits; lia. }
  eexists. split; [|split; [|split]].
  - unfold PoS.AddBlock. unfold bind at 1, get.
    unfold bind at 1, lastElem. rewrite Hprev. cbn [orPanic]. unfold ret at 1.
    unfold bind. rewrite PoS_SelectValidator_walk by done. unfold put. reflexivity.
  - reflexivity.
  - reflexivity.
  - eapply PoS_chain_linked_snoc; [done..|reflexivity].
Qed.

(** X1: on a PoS chain with its genesis Record, whose stakes sum to a
    positive [int], [AddBlock] returns whatever the draw and the visiting
    orders; it appends exactly one Record, which carries the data, has the
    hash [CalculateHash] gives it, and keeps every PrevHash equal to the
    Hash of the Record before. *)
Theorem PoS_AddBlock_appends_one_linked_record :
  forall (bc : PoS.Blockchain) (data now : string)
         (order1 order2 : list (string * Z)) (pick : Z),
    PoS.enumerates order1 (PoS.Stakes bc) ->
    0 < total_stake (PoS.Stakes bc) <= max_int ->
    PoS.Blocks bc <> [] ->
    PoS_chain_linked (PoS.Blocks bc) ->
    exists b,
      PoS.AddBlock data now order1 order2 pick bc
      = Returns tt (PoS.mkBlockchain (PoS.Blocks bc ++ [b]) (PoS.Validators bc) (PoS.Stakes bc))
      /\ PoS.Data b = data
      /\ PoS.CalculateHash b = PoS.Hash b
      /\ PoS_chain_linked (PoS.Blocks bc ++ [b]).
Proof. intros. by apply PoS_AddBlock_linked. Qed.

Lemma PoS_single_block_linked (g : PoS.Block) : PoS_chain_linked [g].
Proof. intros i cur prev Hcur _. destruct i; discriminate. Qed.

Lemma PoS_AddBlock_appends_one_linked_record_witness :
  exists b,
    PoS.AddBlock "Test block 1" clock1 PoS_test_order PoS_test_order 42 PoS_test_chain
    = Returns tt (PoS.mkBlockchain (PoS.Blocks PoS_test_chain ++ [b])
                    (PoS.Validators PoS_test_chain) (PoS.Stakes PoS_test_chain))
    /\ PoS.Data b = "Test block 1"
    /\ PoS.CalculateHash b = PoS.Hash b
    /\ PoS_chain_linked (PoS.Blocks PoS_test_chain ++ [b]).
Proof.
  apply (PoS_AddBlock_appends_one_linked_record PoS_test_chain "Test block 1" clock1
           PoS_test_order PoS_test_order 42).
  - vm_compute. reflexivity.
  - vm_compute. split; [reflexivity | discriminate].
  - discriminate.
  - apply PoS_single_block_linked.
Defined.

(** X2: the repository's PoS test, for every clock reading, draw and visiting
    order: [NewBlockchain] with the stakes Alice 70, Bob 30 and two
    [AddBlock] calls return a chain of exactly 3 linked Records whose last
    one carries "Test block 2". *)
Theorem PoS_test_scenario_three_records :
  forall (now0 now1 now2 : string) (o1 o2 o3 o4 : list (string * Z)) (pick1 pick2 : Z),
    PoS.enumerates o1 PoS_test_stakes ->
    PoS.enumerates o3 PoS_test_stakes ->
    exists bc0 g b1 b2,
      PoS.NewBlockchain ["Alice"; "Bob"] PoS_test_stakes now0 = Returns bc0 tt
      /\ (PoS.AddBlock "Test block 1" now1 o1 o2 pick1 ;;;
          PoS.AddBlock "Test block 2" now2 o3 o4 pick2) bc0
         = Returns tt (PoS.mkBlockchain [g; b1; b2] ["Alice"; "Bob"] PoS_test_stakes)
      /\ PoS.Data b2 = "Test block 2"
      /\ PoS_chain_linked [g; b1; b2].
Proof.
  intros now0 now1 now2 o1 o2 o3 o4 pick1 pick2 Ho1 Ho3.
  set (g := PoS.NewBlock "Genesis Block" "" 0 "Alice" now0).
  set (bc0 := PoS.mkBlockchain [g] ["Alice"; "Bob"] PoS_test_stakes).
  assert (HT : 0 < total_stake PoS_test_stakes <= max_int)
    by (vm_compute; split; [reflexivity | discriminate]).
  destruct (PoS_AddBlock_linked bc0 "Test block 1" now1 o1 o2 pick1)
    as (b1 & Hrun1 & _ & _ & Hl1); [done|done|done|apply PoS_single_block_linked|].
  cbn [PoS.Blocks PoS.Validators PoS.Stakes bc0 app] in Hrun1, Hl1.
  set (bc1 := PoS.mkBlockchain [g; b1] ["Alice"; "Bob"] PoS_test_stakes) in *.
  destruct (PoS_AddBlock_linked bc1 "Test block 2" now2 o3 o4 pick2)
    as (b2 & Hrun2 & Hdata2 & _ & Hl2); [done|done|done|done|].
  cbn [PoS.Blocks PoS.Validators PoS.Stakes bc1 app] in Hrun2, Hl2.
  exists bc0, g, b1, b2. split; [reflexivity|]. split; [|done].
  unfold bind. by rewrite Hrun1.
Qed.

Lemma PoS_test_scenario_three_records_witness :
  exists bc0 g b1 b2,
    PoS.NewBlockchain ["Alice"; "Bob"] PoS_test_stakes clock0 = Returns bc0 tt
    /\ (PoS.AddBlock "Test block 1" clock1 PoS_test_order PoS_test_order 10 ;;;
        PoS.AddBlock "Test block 2" clock1 PoS_test_order PoS_test_order 90) bc0
       = Returns tt (PoS.mkBlockchain [g; b1; b2] ["Alice"; "Bob"] PoS_test_stakes)
    /\ PoS.Data b2 = "Test block 2"
    /\ PoS_chain_linked [g; b1; b2].
Proof.
  apply (PoS_test_scenario_three_records clock0 clock1 clock1
           PoS_test_order PoS_test_order PoS_test_order PoS_test_order 10 90).
  - vm_compute. reflexivity.
  - vm_compute. reflexivity.
Defined.

(** ** PBFT: one copy per node *)

(** X3: on any network whose nodes all point to their own chain (as
    [NewPBFTNetwork] builds it), a round of [RunPBFT] returns and appends the
    proposed block to that chain once for every node: [len(Nodes)] copies. *)
Theorem PBFT_round_appends_one_copy_per_node :
  forall (h : list PBFT.Blockchain) (a : nat) (b : PBFT.Blockchain) (prev : PBFT.Block)
         (data now : string),
    h !! a = Some b ->
    PBFT.Nodes b <> [] ->
    Forall (fun n => PBFT.BlockchainPtr n = Some a) (PBFT.Nodes b) ->
    last (PBFT.Blocks b) = Some prev ->
    2 * len (PBFT.Nodes b) <= max_int ->
    PBFT.RunPBFT (Some a) data now h
    = Returns tt
        (<[a := PBFT.mkBlockchain
                  (PBFT.Blocks b
                   ++ replicate (length (PBFT.Nodes b))
                        (PBFT.NewBlock data (PBFT.Hash prev) (wrap (PBFT.Index prev + 1)) now))
                  (PBFT.Nodes b)]> h).
Proof. intros. by apply PBFT_RunPBFT_shared. Qed.

Lemma PBFT_round_appends_one_copy_per_node_witness :
  PBFT.RunPBFT (Some 0%nat) "tx1" clock1 PBFT_five
  = Returns tt
      (<[0%nat := PBFT.mkBlockchain
                (PBFT.Blocks PBFT_five_chain
                 ++ replicate (length (PBFT.Nodes PBFT_five_chain))
                      (PBFT.NewBlock "tx1"
                         (PBFT.Hash (PBFT.NewBlock "Genesis Block" "" 0 clock0))
                         (wrap (PBFT.Index (PBFT.NewBlock "Genesis Block" "" 0 clock0) + 1))
                         clock1))
                (PBFT.Nodes PBFT_five_chain)]> PBFT_five).
Proof.
  apply (PBFT_round_appends_one_copy_per_node PBFT_five 0 PBFT_five_chain
           (PBFT.NewBlock "Genesis Block" "" 0 clock0) "tx1" clock1).
  - reflexivity.
  - discriminate.
  - repeat constructor.
  - vm_compute. reflexivity.
  - vm_compute. discriminate.
Defined.

(** ** The digest format *)

Lemma String_length_of_list (l : list Ascii.ascii) :
  String.length (String.string_of_list_ascii l) = length l.
Proof. induction l as [|c l IH]; cbn; [done|]. by rewrite IH. Qed.

Lemma SHA256_be_bytes_range k x : Forall (fun b => 0 <= b < 256) (SHA256.be_bytes k x).
Proof.
  induction k as [|k IH]; cbn [SHA256.be_bytes]; constructor; [|done].
  apply Z.mod_pos_bound. lia.
Qed.

Lemma SHA256_be_bytes_length k x : length (SHA256.be_bytes k x) = k.
Proof. induction k as [|k IH]; cbn [SHA256.be_bytes length]; [done|]. by rewrite IH. Qed.

Lemma SHA256_compress_length h chunk :
  length h = 8%nat -> length (SHA256.compress h chunk) = 8%nat.
Proof. intros Hh. unfold SHA256.compress. rewrite length_zip_with, Hh. done. Qed.

Lemma SHA256_state_length cs : forall h,
  length h = 8%nat -> length (fold_left SHA256.compress cs h) = 8%nat.
Proof.
  induction cs as [|c cs IH]; intros h Hh; cbn [fold_left]; [done|].
  by apply IH, SHA256_compress_length.
Qed.

Lemma SHA256_digest_bytes (ws : list Z) :
  length (flat_map (SHA256.be_bytes 4) ws) = (4 * length ws)%nat
  /\ Forall (fun b => 0 <= b < 256) (flat_map (SHA256.be_bytes 4) ws).
Proof.
  induction ws as [|w ws [IHl IHr]]; cbn [flat_map]; [done|]. split.
  - rewrite length_app, SHA256_be_bytes_length, IHl. cbn [length]. lia.
  - apply Forall_app. split; [apply SHA256_be_bytes_range|done].
Qed.

Lemma SHA256_hex_digit_lower d : 0 <= d < 16 -> is_lower_hex (SHA256.hex_digit d) = true.
Proof.
  intros Hd. rewrite <- (Z2Nat.id d) by lia.
  assert (Hn : (Z.to_nat d < 16)%nat) by lia. revert Hn.
  generalize (Z.to_nat d). intros n Hn.
  do 16 (destruct n as [|n]; [reflexivity|]). lia.
Qed.

Lemma SHA256_hex_format (bs : list Z) :
  Forall (fun b => 0 <= b < 256) bs ->
  String.length (SHA256.hex bs) = (2 * length bs)%nat
  /\ Forall (fun c => is_lower_hex c = true) (String.list_ascii_of_string (SHA256.hex bs)).
Proof.
  intros Hbs. unfold SHA256.hex.
  rewrite String_length_of_list, String.list_ascii_of_string_of_list_ascii.
  induction Hbs as [|b bs Hb _ [IHl IHr]]; cbn [flat_map]; [done|]. split.
  - cbn [app length]. rewrite IHl. lia.
  - cbn [app]. repeat constructor; [| |done]; apply SHA256_hex_digit_lower.
    + split; [apply Z.div_pos; lia | apply Z.div_lt_upper_bound; lia].
    + apply Z.mod_pos_bound. lia.
Qed.

Lemma sha256_hex_format msg : hash_format (SHA256.sha256_hex msg).
Proof.
  unfold hash_format, SHA256.sha256_hex, SHA256.Sum256.
  set (st := fold_left SHA256.compress _ SHA256.H0).
  assert (Hst : length st = 8%nat) by (by apply SHA256_state_length).
  destruct (SHA256_digest_bytes st) as [Hlen Hrange].
  destruct (SHA256_hex_format _ Hrange) as [Hl Hc].
  split; [|done]. rewrite Hl, Hlen, Hst. done.
Qed.

(** X4: in every package [CalculateHash] returns a string of exactly 64
    characters, each one of 0-9 or a-f, whatever the block holds. *)
Theorem CalculateHash_is_64_hex_digits :
  forall (b1 : PoW.Block) (b2 : PoS.Block) (b3 : DPoS.Block)
         (b4 : PBFT.Block) (b5 : Raft.Block) (b6 : Paxos.Block),
    hash_format (PoW.CalculateHash b1)
    /\ hash_format (PoS.CalculateHash b2)
    /\ hash_format (DPoS.CalculateHash b3)
    /\ hash_format (PBFT.CalculateHash b4)
    /\ hash_format (Raft.CalculateHash b5)
    /\ hash_format (Paxos.CalculateHash b6).
Proof. intros. repeat split; apply sha256_hex_format. Qed.

(** ** Proof of Work: the mining loop past its first test *)

Lemma PoW_mineStep_hash_length b : String.length (PoW.Hash (PoW.mineStep b)) = 64%nat.
Proof. cbn [PoW.mineStep PoW.Hash]. apply sha256_hex_format. Qed.

Lemma PoW_mineStep_fields b :
  PoW.Index (PoW.mineStep b) = PoW.Index b
  /\ PoW.Timestamp (PoW.mineStep b) = PoW.Timestamp b
  /\ PoW.Data (PoW.mineStep b) = PoW.Data b
  /\ PoW.PrevHash (PoW.mineStep b) = PoW.PrevHash b
  /\ PoW.Hash (PoW.mineStep b) = PoW.CalculateHash (PoW.mineStep b).
Proof. done. Qed.

(** X5: started on a block whose hash has at least 4 bytes, [MineBlock] never
    panics: for every fuel it has either returned or is still running. *)
Theorem PoW_MineBlock_safe_after_first_hash :
  forall (fuel : nat) (b : PoW.Block),
    (4 <= String.length (PoW.Hash b))%nat ->
    (exists b', PoW.MineBlock fuel b = Returns tt b')
    \/ (exists b', PoW.MineBlock fuel b = Unfinished b').
Proof.
  induction fuel as [|fuel IH]; intros b Hlen; [right; by eexists|].
  cbn [PoW.MineBlock]. unfold PoW.difficulty.
  rewrite bool_decide_eq_true_2 by lia.
  destruct (negb _); [|left; by eexists].
  apply IH. rewrite PoW_mineStep_hash_length. lia.
Qed.

Lemma PoW_MineBlock_safe_after_first_hash_witness :
  (exists b', PoW.MineBlock 3 PoW_unmined = Returns tt b')
  \/ (exists b', PoW.MineBlock 3 PoW_unmined = Unfinished b').
Proof.
  apply (PoW_MineBlock_safe_after_first_hash 3 PoW_unmined).
  vm_compute. lia.
Defined.

(** X6: when [MineBlock] returns, the block it leaves is the starting block
    after [k] turns of the loop body, where [k] is the least number of turns
    after which the hash starts with "0000"; Index, Timestamp, Data and
    PrevHash are those of the starting block, and if at least one turn ran the
    hash is the one [CalculateHash] gives the returned block. *)
Theorem PoW_MineBlock_returns_first_hit :
  forall (fuel : nat) (b b' : PoW.Block),
    PoW.MineBlock fuel b = Returns tt b' ->
    exists k : nat,
      (k < fuel)%nat
      /\ b' = Nat.iter k PoW.mineStep b
      /\ String.substring 0 4 (PoW.Hash b') = "0000"
      /\ (forall j, (j < k)%nat ->
            String.substring 0 4 (PoW.Hash (Nat.iter j PoW.mineStep b)) <> "0000")
      /\ PoW.Index b' = PoW.Index b
      /\ PoW.Timestamp b' = PoW.Timestamp b
      /\ PoW.Data b' = PoW.Data b
      /\ PoW.PrevHash b' = PoW.PrevHash b
      /\ ((0 < k)%nat -> PoW.Hash b' = PoW.CalculateHash b').
Proof.
  induction fuel as [|fuel IH]; intros b b' Hrun; [discriminate|].
  cbn [PoW.MineBlock] in Hrun.
  destruct (bool_decide _); [|discriminate].
  destruct (String.eqb _ PoW.target) eqn:Heq; cbn [negb] in Hrun.
  - injection Hrun as <-. apply String.eqb_eq in Heq. exists 0%nat.
    repeat split; try done; lia.
  - apply String.eqb_neq in Heq.
    destruct (IH _ _ Hrun) as (k & Hk & -> & Hhit & Hfirst & Hi & Ht & Hd & Hp & Hh).
    exists (Datatypes.S k). rewrite Nat.iter_succ_r.
    repeat split; try done; try lia.
    + intros [|j] Hj; [exact Heq|]. rewrite Nat.iter_succ_r. apply Hfirst. lia.
    + intros _. destruct k as [|k]; [reflexivity|]. apply Hh. lia.
Qed.

Lemma PoW_MineBlock_returns_first_hit_witness :
  exists k : nat,
    (k < 3)%nat
    /\ Nat.iter 2 PoW.mineStep PoW_unmined = Nat.iter k PoW.mineStep PoW_unmined
    /\ String.substring 0 4 (PoW.Hash (Nat.iter 2 PoW.mineStep PoW_unmined)) = "0000"
    /\ (forall j, (j < k)%nat ->
          String.substring 0 4 (PoW.Hash (Nat.iter j PoW.mineStep PoW_unmined)) <> "0000")
    /\ PoW.Index (Nat.iter 2 PoW.mineStep PoW_unmined) = PoW.Index PoW_unmined
    /\ PoW.Timestamp (Nat.iter 2 PoW.mineStep PoW_unmined) = PoW.Timestamp PoW_unmined
    /\ PoW.Data (Nat.iter 2 PoW.mineStep PoW_unmined) = PoW.Data PoW_unmined
    /\ PoW.PrevHash (Nat.iter 2 PoW.mineStep PoW_unmined) = PoW.PrevHash PoW_unmined
    /\ ((0 < k)%nat ->
        PoW.Hash (Nat.iter 2 PoW.mineStep PoW_unmined)
        = PoW.CalculateHash (Nat.iter 2 PoW.mineStep PoW_unmined)).
Proof.
  apply (PoW_MineBlock_returns_first_hit 3 PoW_unmined (Nat.iter 2 PoW.mineStep PoW_unmined)).
  vm_compute. reflexivity.
Defined.

Example PoW_two_turns_of_mining :
  PoW.Nonce (Nat.iter 2 PoW.mineStep PoW_unmined) = 2
  /\ PoW.Hash (Nat.iter 2 PoW.mineStep PoW_unmined)
     = "0000d562ab4e5f1533eb791ae475347575e2b7257b092a057e24e23019df8227".
Proof. split; vm_compute; reflexivity. Qed.

(** ** Delegated Proof of Stake: counting the votes *)

Lemma DPoS_collectLoop_app order acc : DPoS.collectLoop order acc = acc ++ order.*1.
Proof.
  revert acc. induction order as [|[d k] rest IH]; intros acc; cbn.
  - by rewrite app_nil_r.
  - rewrite IH. by rewrite <- app_assoc.
Qed.

Lemma DPoS_tallyLoop_dom order (votes : gmap string Z) :
  dom (DPoS.tallyLoop order votes) = dom votes ∪ list_to_set order.*2.
Proof.
  revert votes. induction order as [|[v d] rest IH]; intros votes; cbn.
  - set_solver.
  - rewrite IH, dom_insert_L. set_solver.
Qed.

Lemma DPoS_tallyLoop_perm order1 order2 :
  order1 ≡ₚ order2 -> forall votes, DPoS.tallyLoop order1 votes = DPoS.tallyLoop order2 votes.
Proof.
  induction 1 as [|[v d] l1 l2 ? IH|[v1 d1] [v2 d2] l|l1 l2 l3 ? IH1 ? IH2]; intros votes; cbn.
  - done.
  - apply IH.
  - f_equal. destruct (decide (d1 = d2)) as [->|Hne].
    + by rewrite !lookup_insert_eq, !insert_insert_eq.
    + rewrite !lookup_insert_ne by done. by apply insert_insert_ne.
  - by rewrite IH1, IH2.
Qed.

Lemma DPoS_swap_perm (l : list string) i j :
  0 <= i < len l -> 0 <= j < len l ->
  exists l', DPoS.swapDelegates i j l = Returns tt l' /\ l' ≡ₚ l.
Proof.
  unfold len. intros Hi Hj. unfold DPoS.swapDelegates, DPoS.index.
  rewrite !bool_decide_eq_true_2 by lia.
  destruct (lookup_lt_is_Some_2 l (Z.to_nat j)) as [dj Hdj]; [lia|].
  destruct (lookup_lt_is_Some_2 l (Z.to_nat i)) as [di Hdi]; [lia|].
  rewrite Hdj, Hdi. eexists. split; [done|].
  apply Permutation_inj. split; [by rewrite !length_insert|].
  exists (fun k => if decide (k = Z.to_nat i) then Z.to_nat j
                   else if decide (k = Z.to_nat j) then Z.to_nat i else k).
  split.
  - intros a b. repeat case_decide; lia.
  - intros k. destruct (decide (k = Z.to_nat j)) as [->|Hkj].
    + rewrite list_lookup_insert_eq by (rewrite length_insert; lia).
      repeat case_decide; try done; congruence.
    + rewrite list_lookup_insert_ne by done.
      destruct (decide (k = Z.to_nat i)) as [->|Hki].
      * rewrite list_lookup_insert_eq by lia. done.
      * by rewrite list_lookup_insert_ne.
Qed.

Lemma DPoS_shuffle_perm swaps : forall (l : list string),
  DPoS_swaps_in_range (len l) swaps ->
  exists l', forEach swaps (fun ij => DPoS.swapDelegates (fst ij) (snd ij)) l = Returns tt l'
             /\ l' ≡ₚ l.
Proof.
  induction swaps as [|[i j] rest IH]; intros l Hr.
  - by exists l.
  - apply Forall_cons in Hr as [[Hi Hj] Hrest]. cbn in Hi, Hj.
    destruct (DPoS_swap_perm l i j Hi Hj) as (l1 & Hs & Hp).
    destruct (IH l1) as (l2 & Hrun & Hp2).
    { unfold len. rewrite Hp. exact Hrest. }
    exists l2. split; [|by rewrite Hp2].
    cbn [forEach fst snd]. unfold bind. by rewrite Hs.
Qed.

Lemma DPoS_CountVotes_result bc rangeVoters rangeVotes swaps :
  rangeVoters (default ∅ (DPoS.Voters bc)) ≡ₚ map_to_list (default ∅ (DPoS.Voters bc)) ->
  rangeVotes (DPoS_tally (default ∅ (DPoS.Voters bc)))
    ≡ₚ map_to_list (DPoS_tally (default ∅ (DPoS.Voters bc))) ->
  DPoS_swaps_in_range (len (map_to_list (DPoS_tally (default ∅ (DPoS.Voters bc))))) swaps ->
  exists ds,
    DPoS.CountVotes rangeVoters rangeVotes swaps bc
    = Returns tt (DPoS.mkBlockchain (DPoS.Blocks bc) ds (DPoS.Voters bc))
    /\ ds ≡ₚ (map_to_list (DPoS_tally (default ∅ (DPoS.Voters bc)))).*1.
Proof.
  intros Hvoters Hvotes Hswaps.
  unfold DPoS.CountVotes. unfold bind at 1, get.
  rewrite (DPoS_tallyLoop_perm _ _ Hvoters ∅). fold (DPoS_tally (default ∅ (DPoS.Voters bc))).
  rewrite DPoS_collectLoop_app. cbn [app].
  destruct (DPoS_shuffle_perm swaps (rangeVotes (DPoS_tally (default ∅ (DPoS.Voters bc)))).*1)
    as (ds & Hrun & Hperm).
  { unfold len in *. rewrite length_fmap, Hvotes. exact Hswaps. }
  exists ds. split.
  - unfold bind, call, put. by rewrite Hrun.
  - by rewrite Hperm, Hvotes.
Qed.

Lemma DPoS_tally_names (voters : gmap string string) d :
  d ∈ (map_to_list (DPoS_tally voters)).*1 <-> exists v, voters !! v = Some d.
Proof.
  assert (Hdom : d ∈ dom (DPoS_tally voters) <-> exists v, voters !! v = Some d).
  { unfold DPoS_tally. rewrite DPoS_tallyLoop_dom, dom_empty_L, (left_id_L ∅ (∪)).
    rewrite elem_of_list_to_set, list_elem_of_fmap. split.
    - intros ([v d'] & -> & Hin). exists v. by apply elem_of_map_to_list in Hin.
    - intros (v & Hv). exists (v, d). split; [done|]. by apply elem_of_map_to_list. }
  rewrite <- Hdom, elem_of_dom, list_elem_of_fmap. split.
  - intros ([d' k] & -> & Hin). exists k. by apply elem_of_map_to_list in Hin.
  - intros [k Hk]. exists (d, k). split; [done|]. by apply elem_of_map_to_list.
Qed.

(** X7: [CountVotes] returns, for every visiting order of the two maps and
    every shuffle whose swaps stay in range, and replaces Delegates by a list
    without repetition of exactly the names that hold at least one vote: a
    delegate nobody voted for is dropped, and a name somebody voted for
    enters the list whether or not it was a delegate before.  Blocks and
    Voters are as they were. *)
Theorem DPoS_CountVotes_keeps_voted_names :
  forall (bc : DPoS.Blockchain) (rangeVoters : gmap string string -> list (string * string))
         (rangeVotes : gmap string Z -> list (string * Z)) (swaps : list (Z * Z)),
    rangeVoters (default ∅ (DPoS.Voters bc)) ≡ₚ map_to_list (default ∅ (DPoS.Voters bc)) ->
    rangeVotes (DPoS_tally (default ∅ (DPoS.Voters bc)))
      ≡ₚ map_to_list (DPoS_tally (default ∅ (DPoS.Voters bc))) ->
    DPoS_swaps_in_range (len (map_to_list (DPoS_tally (default ∅ (DPoS.Voters bc))))) swaps ->
    exists ds,
      DPoS.CountVotes rangeVoters rangeVotes swaps bc
      = Returns tt (DPoS.mkBlockchain (DPoS.Blocks bc) ds (DPoS.Voters bc))
      /\ NoDup ds
      /\ forall d, d ∈ ds <-> exists v, default ∅ (DPoS.Voters bc) !! v = Some d.
Proof.
  intros bc rangeVoters rangeVotes swaps Hvoters Hvotes Hswaps.
  destruct (DPoS_CountVotes_result bc rangeVoters rangeVotes swaps) as (ds & Hrun & Hperm);
    [done..|].
  exists ds. split; [done|]. split.
  - rewrite Hperm. apply NoDup_fst_map_to_list.
  - intros d. rewrite Hperm. apply DPoS_tally_names.
Qed.

Lemma DPoS_CountVotes_keeps_voted_names_witness :
  exists ds,
    DPoS.CountVotes map_to_list map_to_list [(2, 0); (1, 1)] DPoS_voted_chain
    = Returns tt (DPoS.mkBlockchain (DPoS.Blocks DPoS_voted_chain) ds
                    (DPoS.Voters DPoS_voted_chain))
    /\ NoDup ds
    /\ forall d, d ∈ ds <-> exists v, default ∅ (DPoS.Voters DPoS_voted_chain) !! v = Some d.
Proof.
  apply (DPoS_CountVotes_keeps_voted_names DPoS_voted_chain map_to_list map_to_list
           [(2, 0); (1, 1)]).
  - reflexivity.
  - reflexivity.
  - vm_compute. repeat constructor; discriminate.
Defined.

Example DPoS_voting_example_delegates :
  DPoS.Delegates (stateAfter (DPoS.CountVotes map_to_list map_to_list [(2, 0); (1, 1)]
                                DPoS_voted_chain) DPoS_voted_chain)
  = ["Bob"; "Alice"; "Charlie"].
Proof. vm_compute. reflexivity. Qed.

Lemma DPoS_swaps_none swaps : DPoS_swaps_in_range 0 swaps -> swaps = [].
Proof. destruct 1 as [|ij rest [Hi _] _]; [done|lia]. Qed.

(** X8: on a chain on which nobody has voted (an empty or a nil Voters
    table) [CountVotes] leaves the Delegates list empty, and the [AddBlock]
    after it panics in [rand.Intn(0)] and appends nothing. *)
Theorem DPoS_CountVotes_without_votes_stops_AddBlock :
  forall (bc : DPoS.Blockchain) (rangeVoters : gmap string string -> list (string * string))
         (rangeVotes : gmap string Z -> list (string * Z)) (swaps : list (Z * Z))
         (data now : string) (pick : Z),
    default ∅ (DPoS.Voters bc) = ∅ ->
    rangeVoters ∅ ≡ₚ map_to_list (∅ : gmap string string) ->
    rangeVotes ∅ ≡ₚ map_to_list (∅ : gmap string Z) ->
    DPoS_swaps_in_range 0 swaps ->
    DPoS.Blocks bc <> [] ->
    (DPoS.CountVotes rangeVoters rangeVotes swaps ;;; DPoS.AddBlock data now pick) bc
    = Panics IntnInvalidArgument (DPoS.mkBlockchain (DPoS.Blocks bc) [] (DPoS.Voters bc)).
Proof.
  intros bc rangeVoters rangeVotes swaps data now pick Hempty Hvoters Hvotes Hswaps Hgenesis.
  rewrite map_to_list_empty in Hvoters. rewrite map_to_list_empty in Hvotes.
  apply Permutation_nil_r in Hvoters. apply Permutation_nil_r in Hvotes.
  apply DPoS_swaps_none in Hswaps as ->.
  destruct (proj2 (last_is_Some (DPoS.Blocks bc)) Hgenesis) as [prevBlock Hprev].
  unfold bind at 1. unfold DPoS.CountVotes. unfold bind at 1, get.
  rewrite Hempty, Hvoters. cbn [DPoS.tallyLoop]. rewrite Hvotes.
  cbn [DPoS.collectLoop forEach]. unfold ret at 1. unfold bind at 1, call, put.
  unfold DPoS.AddBlock. unfold bind at 1, get.
  unfold bind at 1, lastElem. cbn [DPoS.Blocks]. rewrite Hprev. cbn [orPanic]. unfold ret at 1.
  unfold bind at 1, DPoS.SelectDelegate. unfold bind at 1, get.
  cbn [DPoS.Delegates]. done.
Qed.

Lemma DPoS_CountVotes_without_votes_stops_AddBlock_witness :
  (DPoS.CountVotes map_to_list map_to_list [] ;;; DPoS.AddBlock "Test block 1" clock1 0)
    DPoS_fresh_chain
  = Panics IntnInvalidArgument
      (DPoS.mkBlockchain (DPoS.Blocks DPoS_fresh_chain) [] (DPoS.Voters DPoS_fresh_chain)).
Proof.
  apply (DPoS_CountVotes_without_votes_stops_AddBlock DPoS_fresh_chain map_to_list map_to_list
           [] "Test block 1" clock1 0).
  - reflexivity.
  - reflexivity.
  - reflexivity.
  - constructor.
  - discriminate.
Defined.

Lemma DPoS_chain_linked_snoc blocks prev b :
  DPoS_chain_linked blocks ->
  last blocks = Some prev ->
  DPoS.PrevHash b = DPoS.Hash prev ->
  DPoS_chain_linked (blocks ++ [b]).
Proof.
  intros Hlinked Hlast Hb i cur prev' Hcur Hprev'.
  apply last_Some in Hlast as [pre ->].
  destruct (decide (Datatypes.S i < length (pre ++ [prev]))%nat) as [Hlt|Hge].
  - rewrite lookup_app_l in Hcur by done. rewrite lookup_app_l in Hprev' by lia. eauto.
  - rewrite length_app in Hge. cbn in Hge.
    assert (i = length pre) as -> by (apply lookup_lt_Some in Hcur;
      rewrite !length_app in Hcur; cbn in Hcur; lia).
    rewrite <- app_assoc in Hcur, Hprev'. cbn in Hcur, Hprev'.
    rewrite list_lookup_middle in Hprev' by done.
    rewrite (lookup_app_r pre) in Hcur by lia.
    replace (Datatypes.S (length pre) - length pre)%nat with 1%nat in Hcur by lia.
    cbn in Hcur. by simplify_eq.
Qed.

Lemma DPoS_single_block_linked (g : DPoS.Block) : DPoS_chain_linked [g].
Proof. intros i cur prev Hcur _. destruct i; discriminate. Qed.

Lemma DPoS_AddBlock_linked bc data now pick d :
  DPoS.Blocks bc <> [] ->
  0 <= pick ->
  DPoS.Delegates bc !! Z.to_nat pick = Some d ->
  DPoS_chain_linked (DPoS.Blocks bc) ->
  exists b,
    DPoS.AddBlock data now pick bc
    = Returns tt (DPoS.mkBlockchain (DPoS.Blocks bc ++ [b]) (DPoS.Delegates bc) (DPoS.Voters bc))
    /\ DPoS.Data b = data
    /\ DPoS.Delegate b = d
    /\ DPoS.CalculateHash b = DPoS.Hash b
    /\ DPoS_chain_linked (DPoS.Blocks bc ++ [b]).
Proof.
  intros Hgenesis Hpick Hd Hlinked.
  destruct (proj2 (last_is_Some (DPoS.Blocks bc)) Hgenesis) as [prevBlock Hprev].
  assert (Hlen : 0 < len (DPoS.Delegates bc)).
  { apply lookup_lt_Some in Hd. unfold len. lia. }
  eexists. split; [|split; [|split; [|split]]].
  - unfold DPoS.AddBlock. unfold bind at 1, get.
    unfold bind at 1, lastElem. rewrite Hprev. cbn [orPanic]. unfold ret at 1.
    unfold bind at 1, DPoS.SelectDelegate. unfold bind at 1, get.
    rewrite bool_decide_eq_false_2 by lia. unfold bind at 1, ret at 1.
    rewrite bool_decide_eq_true_2 by done. rewrite Hd. cbn [orPanic]. unfold ret, put.
    reflexivity.
  - reflexivity.
  - reflexivity.
  - reflexivity.
  - eapply DPoS_chain_linked_snoc; [done..|reflexivity].
Qed.

(** X9: DPoS [AddBlock] on a chain that has its genesis Record, with the
    draw an index of Delegates, returns and appends exactly one Record: it
    carries the given data, names the delegate at the drawn index, has the
    hash [CalculateHash] gives it, and every Record's PrevHash is still the
    Hash of the Record before it. *)
Theorem DPoS_AddBlock_appends_one_linked_record :
  forall (bc : DPoS.Blockchain) (data now : string) (pick : Z) (d : string),
    DPoS.Blocks bc <> [] ->
    0 <= pick ->
    DPoS.Delegates bc !! Z.to_nat pick = Some d ->
    DPoS_chain_linked (DPoS.Blocks bc) ->
    exists b,
      DPoS.AddBlock data now pick bc
      = Returns tt (DPoS.mkBlockchain (DPoS.Blocks bc ++ [b]) (DPoS.Delegates bc)
                      (DPoS.Voters bc))
      /\ DPoS.Data b = data
      /\ DPoS.Delegate b = d
      /\ DPoS.CalculateHash b = DPoS.Hash b
      /\ DPoS_chain_linked (DPoS.Blocks bc ++ [b]).
Proof. intros. by apply DPoS_AddBlock_linked. Qed.

Lemma DPoS_AddBlock_appends_one_linked_record_witness :
  exists b,
    DPoS.AddBlock "First voting data" clock1 2 DPoS_fresh_chain
    = Returns tt (DPoS.mkBlockchain (DPoS.Blocks DPoS_fresh_chain ++ [b])
                    (DPoS.Delegates DPoS_fresh_chain) (DPoS.Voters DPoS_fresh_chain))
    /\ DPoS.Data b = "First voting data"
    /\ DPoS.Delegate b = "Charlie"
    /\ DPoS.CalculateHash b = DPoS.Hash b
    /\ DPoS_chain_linked (DPoS.Blocks DPoS_fresh_chain ++ [b]).
Proof.
  apply (DPoS_AddBlock_appends_one_linked_record DPoS_fresh_chain
           "First voting data" clock1 2 "Charlie").
  - discriminate.
  - lia.
  - reflexivity.
  - apply DPoS_single_block_linked.
Defined.

(** X10: the scenario of the repository's DPoS test holds on the code for
    all clock readings, map visiting orders, in-range shuffles and draws:
    [NewBlockchain] with the delegates Alice, Bob and Charlie, the votes of
    Voter1 for Alice and of Voter2 for Bob, [CountVotes] and two [AddBlock]
    calls return a chain of exactly 3 linked Records whose last one carries
    "Test block 2"; both added Records name Alice or Bob, Charlie having
    left the Delegates for want of a vote. *)
Theorem DPoS_test_scenario_three_records :
  forall (now0 now1 now2 : string)
         (rangeVoters : gmap string string -> list (string * string))
         (rangeVotes : gmap string Z -> list (string * Z)) (swaps : list (Z * Z))
         (pick1 pick2 : Z),
    rangeVoters DPoS_test_voters ≡ₚ map_to_list DPoS_test_voters ->
    rangeVotes (DPoS_tally DPoS_test_voters) ≡ₚ map_to_list (DPoS_tally DPoS_test_voters) ->
    DPoS_swaps_in_range 2 swaps ->
    0 <= pick1 < 2 ->
    0 <= pick2 < 2 ->
    exists bc0 g b1 b2 ds,
      DPoS.NewBlockchain ["Alice"; "Bob"; "Charlie"] (Some ∅) now0 = Returns bc0 tt
      /\ (DPoS.Vote "Voter1" "Alice" ;;; DPoS.Vote "Voter2" "Bob" ;;;
          DPoS.CountVotes rangeVoters rangeVotes swaps ;;;
          DPoS.AddBlock "Test block 1" now1 pick1 ;;;
          DPoS.AddBlock "Test block 2" now2 pick2) bc0
         = Returns tt (DPoS.mkBlockchain [g; b1; b2] ds (Some DPoS_test_voters))
      /\ DPoS.Data b2 = "Test block 2"
      /\ DPoS.Delegate b1 ∈ ["Alice"; "Bob"]
      /\ DPoS.Delegate b2 ∈ ["Alice"; "Bob"]
      /\ DPoS_chain_linked [g; b1; b2].
Proof.
  intros now0 now1 now2 rangeVoters rangeVotes swaps pick1 pick2
         Hvoters Hvotes Hswaps Hpick1 Hpick2.
  set (g := DPoS.NewBlock "Genesis Block" "" 0 "Alice" now0).
  set (bc0 := DPoS.mkBlockchain [g] ["Alice"; "Bob"; "Charlie"] (Some ∅)).
  set (bcv := DPoS.mkBlockchain [g] ["Alice"; "Bob"; "Charlie"] (Some DPoS_test_voters)).
  assert (Hnames : (map_to_list (DPoS_tally DPoS_test_voters)).*1 ≡ₚ ["Alice"; "Bob"])
    by (vm_compute; first [reflexivity | apply perm_swap]).
  destruct (DPoS_CountVotes_result bcv rangeVoters rangeVotes swaps)
    as (ds & Hcount & Hperm); [done|done| |].
  { cbn [bcv DPoS.Voters default]. unfold len.
    rewrite <- (length_fmap fst), Hnames. exact Hswaps. }
  cbn [bcv DPoS.Voters DPoS.Blocks default] in Hcount, Hperm.
  rewrite Hnames in Hperm.
  assert (Hlen : length ds = 2%nat) by (by rewrite Hperm).
  set (bc1 := DPoS.mkBlockchain [g] ds (Some DPoS_test_voters)) in *.
  destruct (lookup_lt_is_Some_2 ds (Z.to_nat pick1)) as [d1 Hd1]; [lia|].
  destruct (lookup_lt_is_Some_2 ds (Z.to_nat pick2)) as [d2 Hd2]; [lia|].
  destruct (DPoS_AddBlock_linked bc1 "Test block 1" now1 pick1 d1)
    as (b1 & Hrun1 & _ & Hdel1 & _ & Hl1);
    [done|lia|done|apply DPoS_single_block_linked|].
  cbn [bc1 DPoS.Blocks DPoS.Delegates DPoS.Voters app] in Hrun1, Hl1.
  set (bc2 := DPoS.mkBlockchain [g; b1] ds (Some DPoS_test_voters)) in *.
  destruct (DPoS_AddBlock_linked bc2 "Test block 2" now2 pick2 d2)
    as (b2 & Hrun2 & Hdata2 & Hdel2 & _ & Hl2); [done|lia|done|done|].
  cbn [bc2 DPoS.Blocks DPoS.Delegates DPoS.Voters app] in Hrun2, Hl2.
  exists bc0, g, b1, b2, ds. split; [reflexivity|].
  split; [|split; [done|split; [|split; [|done]]]].
  - unfold bind at 1. unfold DPoS.Vote at 1. unfold bind at 1, get.
    cbn [bc0 DPoS.Voters DPoS.Blocks DPoS.Delegates]. unfold put at 1.
    unfold bind at 1. unfold DPoS.Vote at 1. unfold bind at 1, get.
    cbn [DPoS.Voters DPoS.Blocks DPoS.Delegates]. unfold put at 1.
    fold DPoS_test_voters. fold bcv.
    unfold bind at 1. rewrite Hcount. fold bc1.
    unfold bind. by rewrite Hrun1.
  - rewrite Hdel1, <- Hperm. by eapply list_elem_of_lookup_2.
  - rewrite Hdel2, <- Hperm. by eapply list_elem_of_lookup_2.
Qed.

Lemma DPoS_test_scenario_three_records_witness :
  exists bc0 g b1 b2 ds,
    DPoS.NewBlockchain ["Alice"; "Bob"; "Charlie"] (Some ∅) clock0 = Returns bc0 tt
    /\ (DPoS.Vote "Voter1" "Alice" ;;; DPoS.Vote "Voter2" "Bob" ;;;
        DPoS.CountVotes map_to_list map_to_list [(1, 0)] ;;;
        DPoS.AddBlock "Test block 1" clock1 0 ;;;
        DPoS.AddBlock "Test block 2" clock1 1) bc0
       = Returns tt (DPoS.mkBlockchain [g; b1; b2] ds (Some DPoS_test_voters))
    /\ DPoS.Data b2 = "Test block 2"
    /\ DPoS.Delegate b1 ∈ ["Alice"; "Bob"]
    /\ DPoS.Delegate b2 ∈ ["Alice"; "Bob"]
    /\ DPoS_chain_linked [g; b1; b2].
Proof.
  apply (DPoS_test_scenario_three_records clock0 clock1 clock1 map_to_list map_to_list
           [(1, 0)] 0 1).
  - reflexivity.
  - reflexivity.
  - repeat constructor; cbn; lia.
  - lia.
  - lia.
Defined.

(** X11: votes of two different voters do not disturb each other.  On a
    chain with a Voters table the two calls return in either order and leave
    the same chain: its table maps [v1] to [d1] and [v2] to [d2] and holds
    for every other voter what it held before, and Blocks and Delegates are
    untouched. *)
Theorem DPoS_Votes_of_distinct_voters_commute :
  forall (bc : DPoS.Blockchain) (voters : gmap string string) (v1 d1 v2 d2 : string),
    DPoS.Voters bc = Some voters ->
    v1 <> v2 ->
    exists voters' : gmap string string,
      (DPoS.Vote v1 d1 ;;; DPoS.Vote v2 d2) bc
      = Returns tt (DPoS.mkBlockchain (DPoS.Blocks bc) (DPoS.Delegates bc) (Some voters'))
      /\ (DPoS.Vote v2 d2 ;;; DPoS.Vote v1 d1) bc
         = Returns tt (DPoS.mkBlockchain (DPoS.Blocks bc) (DPoS.Delegates bc) (Some voters'))
      /\ voters' !! v1 = Some d1
      /\ voters' !! v2 = Some d2
      /\ forall v, v <> v1 -> v <> v2 -> voters' !! v = voters !! v.
Proof.
  intros [blocks delegates vs] voters v1 d1 v2 d2 Hv Hne. cbn in Hv. subst vs.
  exists (<[v2 := d2]> (<[v1 := d1]> voters)).
  unfold DPoS.Vote, bind, get, put; cbn.
  split; [done|]. split; [by rewrite insert_insert_ne|]. split; [|split].
  - rewrite lookup_insert_ne by done. apply lookup_insert_eq.
  - apply lookup_insert_eq.
  - intros v H1 H2. by rewrite !lookup_insert_ne.
Qed.

Lemma DPoS_Votes_of_distinct_voters_commute_witness :
  exists voters' : gmap string string,
    (DPoS.Vote "Voter1" "Alice" ;;; DPoS.Vote "Voter2" "Bob") DPoS_fresh_chain
    = Returns tt (DPoS.mkBlockchain (DPoS.Blocks DPoS_fresh_chain)
                    (DPoS.Delegates DPoS_fresh_chain) (Some voters'))
    /\ (DPoS.Vote "Voter2" "Bob" ;;; DPoS.Vote "Voter1" "Alice") DPoS_fresh_chain
       = Returns tt (DPoS.mkBlockchain (DPoS.Blocks DPoS_fresh_chain)
                       (DPoS.Delegates DPoS_fresh_chain) (Some voters'))
    /\ voters' !! "Voter1" = Some "Alice"
    /\ voters' !! "Voter2" = Some "Bob"
    /\ forall v, v <> "Voter1" -> v <> "Voter2"
                 -> voters' !! v = (∅ : gmap string string) !! v.
Proof.
  apply (DPoS_Votes_of_distinct_voters_commute DPoS_fresh_chain ∅
           "Voter1" "Alice" "Voter2" "Bob").
  - reflexivity.
  - discriminate.
Defined.

(** ** Rounds only append *)

Section Frames.
Context {S : Type} (R : S -> S -> Prop) `{!PreOrder R}.



End Frames.

Lemma keepsState_ret {S A} (a : A) : keepsState (ret (S := S) a).
Proof. done. Qed.

Lemma keepsState_throw {S A} e : keepsState (throw (S := S) (A := A) e).
Proof. done. Qed.

Lemma keepsState_orPanic {S A} e (o : option A) : keepsState (orPanic (S := S) e o).
Proof. by destruct o. Qed.

Lemma keepsState_deref {X} p : keepsState (deref (X := X) p).
Proof. intros s. unfold deref. by destruct (p ≫= _). Qed.

Lemma keepsState_bind {S A B} (c : M S A) (k : A -> M S B) :
  keepsState c -> (forall a, keepsState (k a)) -> keepsState (bind c k).
Proof.
  intros Hc Hk s. unfold bind. specialize (Hc s).
  destruct (c s) as [a s1|e s1|s1]; cbn in *; subst; [apply Hk|done..].
Qed.

Lemma keepsState_countLoop {S A} (l : list A) (test : A -> M S bool) :
  (forall x, keepsState (test x)) -> forall k, keepsState (countLoop l test k).
Proof.
  intros Htest. induction l as [|x l IH]; intros k; cbn [countLoop].
  - apply keepsState_ret.
  - apply keepsState_bind; [apply Htest|]. intros ok. apply IH.
Qed.

Ltac keeps :=
  repeat first
    [ apply keepsState_ret | apply keepsState_throw | apply keepsState_orPanic
    | apply keepsState_deref | apply keepsState_countLoop; intros
    | apply keepsState_bind; [|intros] | case_match ].

Global Instance PBFT_extends_po : PreOrder PBFT_extends.
Proof.
  split.
  - intros h. split; [done|]. intros a b Hb. exists b. done.
  - intros h1 h2 h3 [Hl1 H1] [Hl2 H2]. split; [congruence|].
    intros a b Hb. destruct (H1 a b Hb) as (b2 & Hb2 & Hn2 & Hp2).
    destruct (H2 a b2 Hb2) as (b3 & Hb3 & Hn3 & Hp3).
    exists b3. split; [done|]. split; [congruence|]. by etrans.
Qed.

Global Instance Raft_extends_po : PreOrder Raft_extends.
Proof.
  split.
  - intros h. split; [done|]. intros a b Hb. exists b. done.
  - intros h1 h2 h3 [Hl1 H1] [Hl2 H2]. split; [congruence|].
    intros a b Hb. destruct (H1 a b Hb) as (b2 & Hb2 & Hn2 & Hd2 & Hp2).
    destruct (H2 a b2 Hb2) as (b3 & Hb3 & Hn3 & Hd3 & Hp3).
    exists b3. split; [done|]. split; [congruence|]. split; [congruence|]. by etrans.
Qed.

Global Instance Paxos_extends_po : PreOrder Paxos_extends.
Proof.
  split.
  - intros h. split; [done|]. intros a b Hb. exists b. done.
  - intros h1 h2 h3 [Hl1 H1] [Hl2 H2]. split; [congruence|].
    intros a b Hb. destruct (H1 a b Hb) as (b2 & Hb2 & Hn2 & Hp2).
    destruct (H2 a b2 Hb2) as (b3 & Hb3 & Hn3 & Hp3).
    exists b3. split; [done|]. split; [congruence|]. by etrans.
Qed.


Lemma PBFT_VerifyBlock_keeps n block : keepsState (PBFT.VerifyBlock n block).
Proof. unfold PBFT.VerifyBlock, lastElem. keeps. Qed.







(** ** Raft: elections and the leader's round *)

Lemma Raft_votes_all (nodes : list Raft.Node) id (h : list Raft.Blockchain) :
  len nodes <= max_int ->
  countLoop nodes (fun node => ret (Raft.VoteFor node id)) 0 h = Returns (len nodes) h.
Proof.
  intros Hsize.
  rewrite (countLoop_counts _ _ (fun _ => true)) by (by apply Forall_forall || lia).
  rewrite filter_all by (by apply Forall_forall). f_equal.
Qed.

Lemma Raft_RequestVote_wins (h : list Raft.Blockchain) a b i n :
  h !! a = Some b ->
  Raft.Nodes b !! i = Some n ->
  Raft.BlockchainPtr n = Some a ->
  len (Raft.Nodes b) <= max_int ->
  Raft.RequestVote (a, i) h
  = Returns true
      (<[a := Raft.mkBlockchain (Raft.Blocks b)
                (<[i := Raft.mkNode (Raft.ID n) true (Some a)]> (Raft.Nodes b))
                (Some (a, i))]> h).
Proof.
  intros Hb Hn Hptr Hsize.
  assert (Hne : 0 < len (Raft.Nodes b)).
  { apply lookup_lt_Some in Hn. unfold len. lia. }
  assert (Ha : (a < length h)%nat) by (by eapply lookup_lt_Some).
  unfold Raft.RequestVote. unfold bind at 1, Raft.derefNode. cbn [fst snd].
  unfold bind at 1. rewrite (deref_Some _ _ _ Hb). rewrite Hn. cbn [orPanic]. unfold ret at 1.
  rewrite Hptr. unfold bind at 1. rewrite (deref_Some _ _ _ Hb).
  unfold bind at 1. rewrite Raft_votes_all by done.
  rewrite Z.quot_div_nonneg by lia.
  rewrite bool_decide_eq_true_2 by (pose proof (half_lt _ Hne); lia).
  unfold bind at 1. rewrite (deref_Some _ _ _ Hb).
  unfold bind at 1, store at 1.
  unfold bind at 1. erewrite deref_Some by (by apply list_lookup_insert_eq).
  unfold bind at 1, store at 1. unfold ret. cbn [Raft.Blocks Raft.Nodes].
  by rewrite list_insert_insert_eq.
Qed.

(** X13: in a Raft network every node votes for every candidate, so
    [RequestVote] of any node of the network wins.  It does not take the
    leadership from an earlier winner: after node [i] and then node [j] have
    won, both carry IsLeader, and the network's Leader is node [j].  Blocks
    and the nodes' IDs are untouched. *)
Theorem Raft_every_candidate_wins_and_leaders_accumulate :
  forall (h : list Raft.Blockchain) (a : nat) (b : Raft.Blockchain) (i j : nat)
         (ni nj : Raft.Node),
    i <> j ->
    h !! a = Some b ->
    Raft.Nodes b !! i = Some ni ->
    Raft.Nodes b !! j = Some nj ->
    Raft.BlockchainPtr ni = Some a ->
    Raft.BlockchainPtr nj = Some a ->
    len (Raft.Nodes b) <= max_int ->
    exists h1 b',
      Raft.RequestVote (a, i) h = Returns true h1
      /\ Raft.RequestVote (a, j) h1 = Returns true (<[a := b']> h)
      /\ Raft.Blocks b' = Raft.Blocks b
      /\ Raft.Leader b' = Some (a, j)
      /\ Raft.IsLeader <$> Raft.Nodes b' !! i = Some true
      /\ Raft.IsLeader <$> Raft.Nodes b' !! j = Some true
      /\ map Raft.ID (Raft.Nodes b') = map Raft.ID (Raft.Nodes b).
Proof.
  intros h a b i j ni nj Hij Hb Hni Hnj Hpi Hpj Hsize.
  assert (Ha : (a < length h)%nat) by (by eapply lookup_lt_Some).
  pose proof (lookup_lt_Some _ _ _ Hni) as Hi.
  pose proof (lookup_lt_Some _ _ _ Hnj) as Hj.
  set (nodes1 := <[i := Raft.mkNode (Raft.ID ni) true (Some a)]> (Raft.Nodes b)).
  set (b1 := Raft.mkBlockchain (Raft.Blocks b) nodes1 (Some (a, i))).
  set (nodes2 := <[j := Raft.mkNode (Raft.ID nj) true (Some a)]> nodes1).
  exists (<[a := b1]> h), (Raft.mkBlockchain (Raft.Blocks b) nodes2 (Some (a, j))).
  split; [by apply Raft_RequestVote_wins|]. split.
  - rewrite (Raft_RequestVote_wins (<[a := b1]> h) a b1 j nj).
    + by rewrite list_insert_insert_eq.
    + by apply list_lookup_insert_eq.
    + cbn. unfold nodes1. by rewrite list_lookup_insert_ne.
    + done.
    + cbn. unfold nodes1, len. by rewrite length_insert.
  - cbn. repeat split.
    + unfold nodes2, nodes1. rewrite list_lookup_insert_ne by done.
      rewrite list_lookup_insert_eq by done. done.
    + unfold nodes2, nodes1. rewrite list_lookup_insert_eq by (by rewrite length_insert). done.
    + unfold nodes2, nodes1. rewrite !list_fmap_insert. cbn.
      rewrite !list_insert_id; [done| |].
      * by rewrite list_lookup_fmap, Hni.
      * rewrite list_lookup_insert_ne by done. by rewrite list_lookup_fmap, Hnj.
Qed.

Lemma Raft_commit_loop nodes a blk :
  Forall (fun n => Raft.BlockchainPtr n = Some a) nodes ->
  forall (h : list Raft.Blockchain) b, h !! a = Some b ->
    forEach nodes (fun node => Raft.CommitBlock node blk) h
    = Returns tt (<[a := Raft.mkBlockchain (Raft.Blocks b ++ replicate (length nodes) blk)
                                           (Raft.Nodes b) (Raft.Leader b)]> h).
Proof.
  induction 1 as [|n rest Hn _ IH]; intros h b Hb.
  - cbn. rewrite app_nil_r. unfold ret. f_equal. destruct b. cbn.
    by rewrite list_insert_id.
  - cbn [forEach]. unfold bind, Raft.CommitBlock, Raft.AddBlock.
    rewrite Hn. unfold bind. rewrite (deref_Some _ _ _ Hb). unfold store.
    erewrite IH; cycle 1.
    { apply list_lookup_insert_eq. by eapply lookup_lt_Some. }
    rewrite list_insert_insert_eq. cbn. by rewrite <- app_assoc.
Qed.

(** X14: [Lead] of a node that is no leader returns and does nothing;
    [Lead] of a leader, on a network whose nodes all point to the network's
    chain, returns and appends the proposed block once per node, as PBFT
    does (X3). *)
Theorem Raft_Lead_appends_one_copy_per_node :
  forall (h : list Raft.Blockchain) (a : nat) (b : Raft.Blockchain) (prev : Raft.Block)
         (n : Raft.Node) (data now : string),
    h !! a = Some b ->
    Raft.BlockchainPtr n = Some a ->
    Raft.Nodes b <> [] ->
    Forall (fun m => Raft.BlockchainPtr m = Some a) (Raft.Nodes b) ->
    last (Raft.Blocks b) = Some prev ->
    len (Raft.Nodes b) <= max_int ->
    Raft.Lead n data now h
    = Returns tt
        (if Raft.IsLeader n
         then <[a := Raft.mkBlockchain
                       (Raft.Blocks b
                        ++ replicate (length (Raft.Nodes b))
                             (Raft.NewBlock data (Raft.Hash prev) (wrap (Raft.Index prev + 1)) now))
                       (Raft.Nodes b) (Raft.Leader b)]> h
         else h).
Proof.
  intros h a b prev n data now Hb Hn Hne Hptr Hprev Hsize.
  unfold Raft.Lead. destruct (Raft.IsLeader n); [|done].
  set (blk := Raft.NewBlock data (Raft.Hash prev) (wrap (Raft.Index prev + 1)) now).
  assert (Hlive : Forall (Raft_live h) (Raft.Nodes b)).
  { eapply Forall_impl; [exact Hptr|]. intros m Hm. exists b, prev.
    rewrite Hm. cbn. done. }
  assert (Hyes : Forall (fun m => Raft_approves h blk m = true) (Raft.Nodes b)).
  { eapply Forall_impl; [exact Hptr|]. intros m Hm.
    unfold Raft_approves, Raft.VerifyBlock. unfold_m. rewrite Hm. cbn.
    rewrite Hb, Hprev. subst blk. cbn [Raft.PrevHash Raft.NewBlock].
    rewrite String.eqb_refl. by rewrite !String.eqb_refl. }
  unfold bind at 1, Raft.ProposeBlock. rewrite Hn.
  unfold bind at 1. rewrite (deref_Some _ _ _ Hb).
  unfold bind at 1, lastElem. rewrite Hprev. cbn [orPanic]. unfold ret at 1 2.
  fold blk. unfold bind at 1.
  rewrite (Raft_BroadcastBlock_threshold h a b blk Hb Hlive Hsize).
  unfold Raft_approvals. rewrite filter_all by done.
  assert (0 < len (Raft.Nodes b)).
  { unfold len. destruct (Raft.Nodes b); [done|]. cbn. lia. }
  rewrite bool_decide_eq_true_2 by (by apply half_lt).
  unfold bind. rewrite (deref_Some _ _ _ Hb).
  by rewrite (Raft_commit_loop _ a blk Hptr h b Hb).
Qed.

Lemma Raft_every_candidate_wins_and_leaders_accumulate_witness :
  exists h1 b',
    Raft.RequestVote (0%nat, 0%nat) Raft_four = Returns true h1
    /\ Raft.RequestVote (0%nat, 2%nat) h1 = Returns true (<[0%nat := b']> Raft_four)
    /\ Raft.Blocks b' = Raft.Blocks Raft_four_chain
    /\ Raft.Leader b' = Some (0%nat, 2%nat)
    /\ Raft.IsLeader <$> Raft.Nodes b' !! 0%nat = Some true
    /\ Raft.IsLeader <$> Raft.Nodes b' !! 2%nat = Some true
    /\ map Raft.ID (Raft.Nodes b') = map Raft.ID (Raft.Nodes Raft_four_chain).
Proof.
  apply (Raft_every_candidate_wins_and_leaders_accumulate Raft_four 0 Raft_four_chain 0 2
           (Raft.NewNode 0 (Some 0%nat)) (Raft.NewNode 2 (Some 0%nat))).
  - lia.
  - reflexivity.
  - reflexivity.
  - reflexivity.
  - reflexivity.
  - reflexivity.
  - vm_compute. discriminate.
Defined.

Lemma Raft_Lead_appends_one_copy_per_node_witness :
  Raft.Lead (Raft.mkNode 0 true (Some 0%nat)) "block1" clock1 Raft_four
  = Returns tt
      (if Raft.IsLeader (Raft.mkNode 0 true (Some 0%nat))
       then <[0%nat := Raft.mkBlockchain
                     (Raft.Blocks Raft_four_chain
                      ++ replicate (length (Raft.Nodes Raft_four_chain))
                           (Raft.NewBlock "block1"
                              (Raft.Hash (Raft.NewBlock "Genesis Block" "" 0 clock0))
                              (wrap (Raft.Index (Raft.NewBlock "Genesis Block" "" 0 clock0) + 1))
                              clock1))
                     (Raft.Nodes Raft_four_chain) (Raft.Leader Raft_four_chain)]> Raft_four
       else Raft_four).
Proof.
  apply (Raft_Lead_appends_one_copy_per_node Raft_four 0 Raft_four_chain
           (Raft.NewBlock "Genesis Block" "" 0 clock0)
           (Raft.mkNode 0 true (Some 0%nat)) "block1" clock1).
  - reflexivity.
  - reflexivity.
  - discriminate.
  - repeat constructor.
  - vm_compute. reflexivity.
  - vm_compute. discriminate.
Defined.

(** ** Paxos: acceptance and the rounds *)

(** X15: a node accepts a proposal exactly when its own Proposals hold one
    with the same ProposalID; the Data and the Accepted flag of either play
    no part. *)
Theorem Paxos_AcceptProposal_matches_number_only :
  forall (n : Paxos.Node) (proposal : Paxos.Proposal),
    Paxos.AcceptProposal n proposal = true
    <-> exists q, q ∈ Paxos.Proposals n /\ Paxos.ProposalID q = Paxos.ProposalID proposal.
Proof.
  intros n proposal. unfold Paxos.AcceptProposal.
  induction (Paxos.Proposals n) as [|p ps IH]; cbn [Paxos.acceptLoop].
  - split; [done|]. intros (q & Hq & _). by apply elem_of_nil in Hq.
  - case_bool_decide as Hp.
    + split; [|done]. intros _. exists p. split; [left|done].
    + rewrite IH. split.
      * intros (q & Hq & Hid). exists q. split; [by right|done].
      * intros (q & Hq & Hid). apply elem_of_cons in Hq as [->|Hq]; [done|]. by exists q.
Qed.



Lemma Paxos_chain_linked_snoc blocks prev b :
  Paxos_chain_linked blocks ->
  last blocks = Some prev ->
  Paxos.PrevHash b = Paxos.Hash prev ->
  Paxos_chain_linked (blocks ++ [b]).
Proof.
  intros Hlinked Hlast Hb i cur prev' Hcur Hprev'.
  apply last_Some in Hlast as [pre ->].
  destruct (decide (Datatypes.S i < length (pre ++ [prev]))%nat) as [Hlt|Hge].
  - rewrite lookup_app_l in Hcur by done. rewrite lookup_app_l in Hprev' by lia. eauto.
  - rewrite length_app in Hge. cbn in Hge.
    assert (i = length pre) as -> by (apply lookup_lt_Some in Hcur;
      rewrite !length_app in Hcur; cbn in Hcur; lia).
    rewrite <- app_assoc in Hcur, Hprev'. cbn in Hcur, Hprev'.
    rewrite list_lookup_middle in Hprev' by done.
    rewrite (lookup_app_r pre) in Hcur by lia.
    replace (Datatypes.S (length pre) - length pre)%nat with 1%nat in Hcur by lia.
    cbn in Hcur. by simplify_eq.
Qed.

Lemma Paxos_CommitProposal_step (h : list Paxos.Blockchain) a b n prevBlock proposal now :
  h !! a = Some b ->
  Paxos.BlockchainPtr n = Some a ->
  last (Paxos.Blocks b) = Some prevBlock ->
  Paxos.CommitProposal n proposal now h
  = Returns tt
      (<[a := Paxos.mkBlockchain
                (Paxos.Blocks b
                 ++ [Paxos.NewBlock (Paxos.PData proposal) (Paxos.Hash prevBlock)
                       (wrap (Paxos.Index prevBlock + 1)) now])
                (Paxos.Nodes b)]> h).
Proof.
  intros Hb Hn Hprev. unfold Paxos.CommitProposal. rewrite Hn.
  unfold bind at 1. rewrite (deref_Some _ _ _ Hb).
  unfold bind at 1, lastElem. rewrite Hprev. cbn [orPanic]. unfold ret at 1.
  unfold Paxos.AddBlock. unfold bind at 1. rewrite (deref_Some _ _ _ Hb). done.
Qed.

Lemma Paxos_commit_loop (inodes : list (nat * Paxos.Node)) a proposal nows :
  Forall (fun x => Paxos.BlockchainPtr (snd x) = Some a) inodes ->
  forall (h : list Paxos.Blockchain) b,
    h !! a = Some b ->
    Paxos.Blocks b <> [] ->
    Paxos_chain_linked (Paxos.Blocks b) ->
    exists news,
      forEach inodes
        (fun inode => Paxos.CommitProposal (snd inode) proposal (nows (fst inode))) h
      = Returns tt (<[a := Paxos.mkBlockchain (Paxos.Blocks b ++ news) (Paxos.Nodes b)]> h)
      /\ length news = length inodes
      /\ Forall (fun blk => Paxos.Data blk = Paxos.PData proposal) news
      /\ Paxos_chain_linked (Paxos.Blocks b ++ news).
Proof.
  induction 1 as [|[i n] rest Hn _ IH]; intros h b Hb Hne Hlinked.
  - exists []. rewrite app_nil_r. split; [|done]. cbn. unfold ret. f_equal.
    destruct b. cbn. by rewrite list_insert_id.
  - cbn [snd] in Hn.
    destruct (proj2 (last_is_Some (Paxos.Blocks b)) Hne) as [prevBlock Hprev].
    set (nb := Paxos.NewBlock (Paxos.PData proposal) (Paxos.Hash prevBlock)
                 (wrap (Paxos.Index prevBlock + 1)) (nows i)).
    set (b1 := Paxos.mkBlockchain (Paxos.Blocks b ++ [nb]) (Paxos.Nodes b)).
    destruct (IH (<[a := b1]> h) b1) as (news & Hrun & Hlen & Hdata & Hl).
    { apply list_lookup_insert_eq. by eapply lookup_lt_Some. }
    { cbn. by destruct (Paxos.Blocks b). }
    { cbn. eapply Paxos_chain_linked_snoc; [done..|reflexivity]. }
    exists (nb :: news). split; [|split; [|split]].
    + cbn [forEach fst snd]. unfold bind at 1.
      rewrite (Paxos_CommitProposal_step h a b n prevBlock proposal (nows i) Hb Hn Hprev).
      fold nb. fold b1. rewrite Hrun. rewrite list_insert_insert_eq.
      cbn [b1 Paxos.Blocks Paxos.Nodes]. by rewrite <- app_assoc.
    + cbn. by rewrite Hlen.
    + by constructor.
    + cbn [b1 Paxos.Blocks] in Hl. by rewrite <- app_assoc in Hl.
Qed.

(** X17: when more than half of the nodes do hold a proposal with the
    round's number, [RunPaxos] returns and appends one Record per node, each
    carrying the round's data.  Each commit builds its Record on the tip of
    that moment, so, unlike in PBFT and Raft, the chain stays linked. *)
Theorem Paxos_RunPaxos_commits_one_block_per_node :
  forall (h : list Paxos.Blockchain) (a : nat) (b : Paxos.Blockchain)
         (data : string) (proposalID : Z) (nows : nat -> string),
    h !! a = Some b ->
    Forall (fun n => Paxos.BlockchainPtr n = Some a) (Paxos.Nodes b) ->
    Paxos.Blocks b <> [] ->
    Paxos_chain_linked (Paxos.Blocks b) ->
    len (Paxos.Nodes b) <= max_int ->
    len (Paxos.Nodes b) `div` 2
      < Paxos_approvals (Paxos.mkProposal proposalID data false) (Paxos.Nodes b) ->
    exists news,
      Paxos.RunPaxos (Some a) data proposalID nows h
      = Returns tt (<[a := Paxos.mkBlockchain (Paxos.Blocks b ++ news) (Paxos.Nodes b)]> h)
      /\ length news = length (Paxos.Nodes b)
      /\ Forall (fun blk => Paxos.Data blk = data) news
      /\ Paxos_chain_linked (Paxos.Blocks b ++ news).
Proof.
  intros h a b data proposalID nows Hb Hptr Hne Hlinked Hsize Hquorum.
  destruct (Paxos_commit_loop (imap (fun i node => (i, node)) (Paxos.Nodes b)) a
              (Paxos.mkProposal proposalID data false) nows) with (h := h) (b := b)
    as (news & Hrun & Hlen & Hdata & Hl); [|done..|].
  { apply Forall_forall. intros [i n] Hin.
    apply elem_of_lookup_imap in Hin as (i' & n' & E & Hn'). simplify_eq. cbn.
    eapply Forall_forall in Hptr; [done|]. by eapply list_elem_of_lookup_2. }
  exists news. rewrite length_imap in Hlen. split; [|done].
  unfold Paxos.RunPaxos. unfold bind at 1. rewrite (deref_Some _ _ _ Hb).
  destruct (Paxos.Nodes b) as [|proposer rest] eqn:Hnodes.
  { unfold Paxos_approvals, len in Hquorum. cbn in Hquorum. done. }
  cbn [lookup list_lookup orPanic]. unfold bind at 1, ret at 1.
  cbn [Paxos.Propose]. unfold bind at 1.
  rewrite (Paxos_BroadcastProposal_threshold h a b _ Hb) by (by rewrite Hnodes).
  rewrite Hnodes. rewrite bool_decide_eq_true_2 by done.
  unfold bind. rewrite (deref_Some _ _ _ Hb). rewrite Hnodes. exact Hrun.
Qed.

Lemma Paxos_single_block_linked (g : Paxos.Block) : Paxos_chain_linked [g].
Proof. intros i cur prev Hcur _. destruct i; discriminate. Qed.

Lemma Paxos_RunPaxos_commits_one_block_per_node_witness :
  exists news,
    Paxos.RunPaxos (Some 0%nat) "d1" 1 (fun _ => clock1) Paxos_recorded
    = Returns tt (<[0%nat := Paxos.mkBlockchain (Paxos.Blocks Paxos_recorded_chain ++ news)
                               (Paxos.Nodes Paxos_recorded_chain)]> Paxos_recorded)
    /\ length news = length (Paxos.Nodes Paxos_recorded_chain)
    /\ Forall (fun blk => Paxos.Data blk = "d1") news
    /\ Paxos_chain_linked (Paxos.Blocks Paxos_recorded_chain ++ news).
Proof.
  apply (Paxos_RunPaxos_commits_one_block_per_node Paxos_recorded 0 Paxos_recorded_chain
           "d1" 1 (fun _ => clock1)).
  - reflexivity.
  - repeat constructor.
  - discriminate.
  - apply Paxos_single_block_linked.
  - vm_compute. discriminate.
  - vm_compute. reflexivity.
Defined.

(** ** Proof of Stake: when selection fails and whom it picks *)

(** X18: [SelectValidator] panics exactly when the sum of the stakes as
    the code computes it, in [int] and so wrapping around, is not positive;
    otherwise it returns, whatever the draw. *)
Theorem PoS_SelectValidator_panics_iff_sum_not_positive :
  forall (bc : PoS.Blockchain) (order1 order2 : list (string * Z)) (pick : Z),
    PoS.enumerates order1 (PoS.Stakes bc) ->
    (wrap (total_stake (PoS.Stakes bc)) <= 0
     /\ PoS.SelectValidator order1 order2 pick bc = Panics IntnInvalidArgument bc)
    \/ (0 < wrap (total_stake (PoS.Stakes bc))
        /\ exists v, PoS.SelectValidator order1 order2 pick bc = Returns v bc).
Proof.
  intros bc order1 order2 pick Henum. unfold total_stake.
  rewrite <- (stake_sum_perm _ _ Henum).
  destruct (decide (wrap (stake_sum order1) <= 0)) as [Hle|Hgt].
  - left. split; [done|]. unfold PoS.SelectValidator, PoS.Intn.
    rewrite PoS_sumLoop_total. by rewrite bool_decide_eq_true_2.
  - right. split; [lia|]. eexists. apply PoS_SelectValidator_walk. lia.
Qed.

Lemma PoS_SelectValidator_panics_iff_sum_not_positive_witness :
  (wrap (total_stake (PoS.Stakes PoS_overflow_chain)) <= 0
   /\ PoS.SelectValidator (map_to_list PoS_overflow_stakes) (map_to_list PoS_overflow_stakes) 7
        PoS_overflow_chain
      = Panics IntnInvalidArgument PoS_overflow_chain)
  \/ (0 < wrap (total_stake (PoS.Stakes PoS_overflow_chain))
      /\ exists v, PoS.SelectValidator (map_to_list PoS_overflow_stakes)
                     (map_to_list PoS_overflow_stakes) 7 PoS_overflow_chain
                   = Returns v PoS_overflow_chain).
Proof.
  apply (PoS_SelectValidator_panics_iff_sum_not_positive PoS_overflow_chain
           (map_to_list PoS_overflow_stakes) (map_to_list PoS_overflow_stakes) 7).
  vm_compute. reflexivity.
Defined.

Example PoS_overflowing_stakes_panic :
  total_stake (PoS.Stakes PoS_overflow_chain) = 9223372036854775808
  /\ wrap (total_stake (PoS.Stakes PoS_overflow_chain)) = min_int
  /\ PoS.SelectValidator (map_to_list PoS_overflow_stakes) (map_to_list PoS_overflow_stakes) 7
       PoS_overflow_chain
     = Panics IntnInvalidArgument PoS_overflow_chain.
Proof. repeat split; vm_compute; reflexivity. Qed.

(** X19: with stakes that are not negative and sum to a positive [int],
    and a draw in [0, T), the participant [SelectValidator] returns is one of
    the table and holds a positive stake: a participant with stake 0 is
    never selected. *)
Theorem PoS_selected_validator_has_positive_stake :
  forall (bc : PoS.Blockchain) (order1 order2 : list (string * Z)) (pick : Z),
    PoS.enumerates order1 (PoS.Stakes bc) ->
    PoS.enumerates order2 (PoS.Stakes bc) ->
    (forall v s, PoS.Stakes bc !! v = Some s -> 0 <= s) ->
    0 < total_stake (PoS.Stakes bc) <= max_int ->
    0 <= pick < total_stake (PoS.Stakes bc) ->
    exists v s,
      PoS.SelectValidator order1 order2 pick bc = Returns v bc
      /\ PoS.Stakes bc !! v = Some s
      /\ 0 < s.
Proof.
  intros bc order1 order2 pick Henum1 Henum2 Hnonneg HT Hpick.
  unfold total_stake in *.
  pose proof (stake_sum_perm _ _ Henum1) as Hsum1.
  pose proof (stake_sum_perm _ _ Henum2) as Hsum2.
  pose proof (PoS_enumeration_nonneg _ _ Henum2 Hnonneg) as Hnn2.
  destruct (PoS_walk_first order2 pick Hnn2 0) as (v & pre & s & post & Hw & E & Hex & Hfirst);
    [lia..|].
  exists v, s. split; [|split].
  - rewrite PoS_SelectValidator_walk by (rewrite wrap_id; unfold min_int, int_bits; lia).
    by rewrite Hw.
  - apply elem_of_map_to_list. rewrite <- Henum2, E.
    apply elem_of_app. right. left.
  - assert (stake_sum pre <= pick); [|lia].
    destruct (decide (pre = [])) as [->|Hne]; [cbn; lia|].
    destruct (proj2 (last_is_Some pre) Hne) as [x Hx].
    apply last_Some in Hx as [pre' ->].
    specialize (Hfirst pre' x [] eq_refl). rewrite stake_sum_app. cbn. lia.
Qed.

Lemma PoS_selected_validator_has_positive_stake_witness :
  exists v s,
    PoS.SelectValidator (map_to_list PoS_idle_stakes) (map_to_list PoS_idle_stakes) 70
      PoS_idle_chain = Returns v PoS_idle_chain
    /\ PoS.Stakes PoS_idle_chain !! v = Some s
    /\ 0 < s.
Proof.
  apply (PoS_selected_validator_has_positive_stake PoS_idle_chain
           (map_to_list PoS_idle_stakes) (map_to_list PoS_idle_stakes) 70).
  - vm_compute. reflexivity.
  - vm_compute. reflexivity.
  - intros v s Hv. apply elem_of_map_to_list in Hv.
    vm_compute in Hv. set_unfold. destruct Hv as [Hv|[Hv|[Hv|[]]]]; simplify_eq; lia.
  - vm_compute. split; [reflexivity | discriminate].
  - vm_compute. split; [discriminate | reflexivity].
Defined.

(** ** Proof of Stake: the Ledger after any number of rounds *)

Lemma PoS_NewBlock_hash data prevHash index validator now :
  PoS.CalculateHash (PoS.NewBlock data prevHash index validator now)
  = PoS.Hash (PoS.NewBlock data prevHash index validator now).
Proof. reflexivity. Qed.

Lemma PoS_numbered_snoc blocks prev b :
  PoS_numbered blocks ->
  last blocks = Some prev ->
  len blocks <= max_int ->
  PoS.Index b = wrap (PoS.Index prev + 1) ->
  PoS.CalculateHash b = PoS.Hash b ->
  PoS_numbered (blocks ++ [b]).
Proof.
  intros Hnum Hlast Hlen Hidx Hhash i x Hx.
  apply lookup_snoc_Some in Hx as [[Hi Hx]|[-> ->]]; [by apply Hnum|].
  split; [|done]. rewrite Hidx.
  rewrite last_lookup in Hlast. destruct (Hnum _ _ Hlast) as [-> _].
  assert (0 < length blocks)%nat by (apply lookup_lt_Some in Hlast; lia).
  unfold len in Hlen. rewrite wrap_id; [lia|]. unfold min_int, int_bits. lia.
Qed.

Lemma PoS_rounds_ledger (stakes : gmap string Z) (calls : list PoS_call) :
  0 < total_stake stakes <= max_int ->
  Forall (fun c => PoS.enumerates (PoS_call_order1 c) stakes) calls ->
  forall bc,
    PoS.Stakes bc = stakes ->
    PoS.Blocks bc <> [] ->
    len (PoS.Blocks bc) + len calls <= max_int ->
    PoS_chain_linked (PoS.Blocks bc) ->
    PoS_numbered (PoS.Blocks bc) ->
    exists news,
      PoS_rounds calls bc
      = Returns tt (PoS.mkBlockchain (PoS.Blocks bc ++ news) (PoS.Validators bc) stakes)
      /\ map PoS.Data news = map PoS_call_data calls
      /\ PoS_chain_linked (PoS.Blocks bc ++ news)
      /\ PoS_numbered (PoS.Blocks bc ++ news).
Proof.
  intros HT. induction 1 as [|c calls Hc _ IH]; intros bc Hst Hne Hlen Hl Hn.
  - exists []. rewrite app_nil_r. split; [|done].
    cbn. unfold ret. f_equal. destruct bc. cbn in *. by subst.
  - destruct c as [[[[data now] o1] o2] pick]. cbn in Hc.
    destruct (proj2 (last_is_Some (PoS.Blocks bc)) Hne) as [prevBlock Hprev].
    assert (Hpos : 0 < wrap (stake_sum o1)).
    { unfold total_stake in HT. rewrite (stake_sum_perm _ _ Hc).
      rewrite wrap_id; unfold min_int, int_bits; lia. }
    set (nb := PoS.NewBlock data (PoS.Hash prevBlock) (wrap (PoS.Index prevBlock + 1))
                 (default "" (PoS.walkLoop o2 0 pick)) now).
    set (bc1 := PoS.mkBlockchain (PoS.Blocks bc ++ [nb]) (PoS.Validators bc) (PoS.Stakes bc)).
    assert (Hstep : PoS.AddBlock data now o1 o2 pick bc = Returns tt bc1).
    { unfold PoS.AddBlock. unfold bind at 1, get.
      unfold bind at 1, lastElem. rewrite Hprev. cbn [orPanic]. unfold ret at 1.
      unfold bind. by rewrite PoS_SelectValidator_walk by done. }
    unfold len in Hlen. cbn [length] in Hlen.
    destruct (IH bc1) as (news & Hrun & Hdata & Hl1 & Hn1).
    + done.
    + cbn. by destruct (PoS.Blocks bc).
    + cbn. unfold len. rewrite length_app. cbn. lia.
    + cbn. eapply PoS_chain_linked_snoc; [done..|reflexivity].
    + cbn. eapply PoS_numbered_snoc; [done..| |reflexivity|reflexivity].
      unfold len. lia.
    + exists (nb :: news). cbn [bc1 PoS.Blocks PoS.Validators] in *.
      rewrite <- app_assoc in Hrun, Hl1, Hn1. cbn [app] in *.
      split; [|split; [|split]]; [|cbn; by rewrite Hdata|done|done].
      unfold PoS_rounds. cbn [forEach]. unfold bind.
      unfold PoS_call_data, PoS_call_order1. cbn [fst snd]. rewrite Hstep. exact Hrun.
Qed.

(** X22: a PoS Ledger after any number of rounds.  With a first validator
    and stakes that sum to a positive [int], [NewBlockchain] followed by any
    sequence of [AddBlock] calls (fewer than 2^63 of them) returns, whatever
    the draws, clock readings and visiting orders, and the chain then holds
    the genesis Record followed by one Record per call, in the order of the
    calls: the Record at position [i] has Index [i] and the hash
    [CalculateHash] gives it, and every Record's PrevHash is the Hash of the
    Record before it. *)
Theorem PoS_ledger_after_any_rounds :
  forall (validators : list string) (v0 : string) (stakes : gmap string Z) (now0 : string)
         (calls : list PoS_call),
    validators !! 0%nat = Some v0 ->
    0 < total_stake stakes <= max_int ->
    Forall (fun c => PoS.enumerates (PoS_call_order1 c) stakes) calls ->
    1 + len calls <= max_int ->
    exists bc0 blocks,
      PoS.NewBlockchain validators stakes now0 = Returns bc0 tt
      /\ PoS_rounds calls bc0 = Returns tt (PoS.mkBlockchain blocks validators stakes)
      /\ map PoS.Data blocks = "Genesis Block" :: map PoS_call_data calls
      /\ PoS_chain_linked blocks
      /\ PoS_numbered blocks.
Proof.
  intros validators v0 stakes now0 calls Hv0 HT Henum Hlen.
  set (g := PoS.NewBlock "Genesis Block" "" 0 v0 now0).
  set (bc0 := PoS.mkBlockchain [g] validators stakes).
  destruct (PoS_rounds_ledger stakes calls HT Henum bc0) as (news & Hrun & Hdata & Hl & Hn).
  - done.
  - done.
  - done.
  - apply PoS_single_block_linked.
  - intros i b Hb. change (PoS.Blocks bc0) with [g] in Hb.
    destruct i as [|i]; [|by rewrite lookup_cons, lookup_nil in Hb].
    injection Hb as <-. split; [reflexivity|apply PoS_NewBlock_hash].
  - exists bc0, (g :: news). split.
    { unfold PoS.NewBlockchain, bind. rewrite Hv0. reflexivity. }
    split; [exact Hrun|]. split; [|exact (conj Hl Hn)].
    cbn [map]. by rewrite Hdata.
Qed.

Lemma PoS_ledger_after_any_rounds_witness :
  exists bc0 blocks,
    PoS.NewBlockchain ["Alice"; "Bob"] PoS_test_stakes clock0 = Returns bc0 tt
    /\ PoS_rounds [("Test block 1", clock1, PoS_test_order, PoS_test_order, 10);
                   ("Test block 2", clock1, PoS_test_order, PoS_test_order, 90);
                   ("Test block 3", clock1, PoS_test_order, PoS_test_order, 69)] bc0
       = Returns tt (PoS.mkBlockchain blocks ["Alice"; "Bob"] PoS_test_stakes)
    /\ map PoS.Data blocks
       = "Genesis Block"
         :: map PoS_call_data
              [("Test block 1", clock1, PoS_test_order, PoS_test_order, 10);
               ("Test block 2", clock1, PoS_test_order, PoS_test_order, 90);
               ("Test block 3", clock1, PoS_test_order, PoS_test_order, 69)]
    /\ PoS_chain_linked blocks
    /\ PoS_numbered blocks.
Proof.
  apply (PoS_ledger_after_any_rounds ["Alice"; "Bob"] "Alice" PoS_test_stakes clock0).
  - reflexivity.
  - vm_compute. split; [reflexivity | discriminate].
  - repeat (constructor; [vm_compute; reflexivity|]). constructor.
  - vm_compute. discriminate.
Defined.

(** ** The network constructors at the edges *)

Lemma Raft_NewRaftNetwork_returns (h0 : list Raft.Blockchain) size now :
  0 <= size -> Raft.NodeSize * size <= maxAlloc ->
  Raft.NewRaftNetwork size now h0
  = Returns (Some (length h0))
      (h0 ++ [Raft.mkBlockchain
                [Raft.NewBlock "Genesis Block" "" 0 now]
                (map (fun i => Raft.NewNode i (Some (length h0))) (seqZ 0 size))
                None]).
Proof.
  intros Hsize Hmem. unfold Raft.NewRaftNetwork, Raft.NewBlockchain.
  unfold bind at 1, alloc.
  rewrite bool_decide_eq_false_2 by (unfold makesliceRefuses; lia).
  unfold bind at 1. rewrite deref_alloc.
  unfold bind, store, ret. cbn [Raft.Blocks Raft.Leader]. by rewrite insert_alloc.
Qed.

(** X20: [NewPBFTNetwork(0)] and [NewPaxosNetwork(0)] return a network
    without nodes, and the first [RunPBFT] or [RunPaxos] on it panics at
    [bc.Nodes[0]], leaving the chain with its genesis Record alone. *)
Theorem networks_of_size_zero_panic_on_first_round :
  forall (hp : list PBFT.Blockchain) (nowp datap nowp' : string)
         (hx : list Paxos.Blockchain) (nowx datax : string) (proposalID : Z)
         (nows : nat -> string),
    (let* bc := PBFT.NewPBFTNetwork 0 nowp in PBFT.RunPBFT bc datap nowp') hp
    = Panics IndexOutOfRange
        (hp ++ [PBFT.mkBlockchain [PBFT.NewBlock "Genesis Block" "" 0 nowp] []])
    /\ (let* bc := Paxos.NewPaxosNetwork 0 nowx in Paxos.RunPaxos bc datax proposalID nows) hx
       = Panics IndexOutOfRange
           (hx ++ [Paxos.mkBlockchain [Paxos.NewBlock "Genesis Block" "" 0 nowx] []]).
Proof.
  intros. split.
  - unfold bind at 1. rewrite PBFT_NewPBFTNetwork_returns by done.
    change (seqZ 0 0) with (@nil Z). cbn [map].
    unfold PBFT.RunPBFT. unfold bind at 1. by rewrite deref_alloc.
  - unfold bind at 1. rewrite Paxos_NewPaxosNetwork_returns by done.
    change (seqZ 0 0) with (@nil Z). cbn [map].
    unfold Paxos.RunPaxos. unfold bind at 1. by rewrite deref_alloc.
Qed.

(** X21: a size that [make] refuses for the smallest of the three node
    types, the 24 bytes of a Raft node (a negative size, or one of more than
    2^48 / 24 nodes), stops each of the three constructors with the panic
    of makeslice.  The chain with its genesis Record has been allocated by
    then and stays in the store, without nodes. *)
Theorem network_constructors_refuse_bad_sizes :
  forall (size : Z) (hp : list PBFT.Blockchain) (hr : list Raft.Blockchain)
         (hx : list Paxos.Blockchain) (now : string),
    makesliceRefuses Raft.NodeSize size ->
    PBFT.NewPBFTNetwork size now hp
    = Panics MakeSliceLenOutOfRange
        (hp ++ [PBFT.mkBlockchain [PBFT.NewBlock "Genesis Block" "" 0 now] []])
    /\ Raft.NewRaftNetwork size now hr
       = Panics MakeSliceLenOutOfRange
           (hr ++ [Raft.mkBlockchain [Raft.NewBlock "Genesis Block" "" 0 now] [] None])
    /\ Paxos.NewPaxosNetwork size now hx
       = Panics MakeSliceLenOutOfRange
           (hx ++ [Paxos.mkBlockchain [Paxos.NewBlock "Genesis Block" "" 0 now] []]).
Proof.
  intros size hp hr hx now Hbad.
  assert (Hp : makesliceRefuses PBFT.NodeSize size)
    by (unfold makesliceRefuses, PBFT.NodeSize, Raft.NodeSize, maxAlloc in *; lia).
  assert (Hx : makesliceRefuses Paxos.NodeSize size)
    by (unfold makesliceRefuses, Paxos.NodeSize, Raft.NodeSize, maxAlloc in *; lia).
  unfold PBFT.NewPBFTNetwork, Raft.NewRaftNetwork, Paxos.NewPaxosNetwork.
  unfold PBFT.NewBlockchain, Raft.NewBlockchain, Paxos.NewBlockchain, bind, alloc.
  by rewrite !bool_decide_eq_true_2 by done.
Qed.

Lemma network_constructors_refuse_bad_sizes_witness :
  PBFT.NewPBFTNetwork 140737488355328 clock0 []
  = Panics MakeSliceLenOutOfRange
      ([] ++ [PBFT.mkBlockchain [PBFT.NewBlock "Genesis Block" "" 0 clock0] []])
  /\ Raft.NewRaftNetwork 140737488355328 clock0 []
     = Panics MakeSliceLenOutOfRange
         ([] ++ [Raft.mkBlockchain [Raft.NewBlock "Genesis Block" "" 0 clock0] [] None])
  /\ Paxos.NewPaxosNetwork 140737488355328 clock0 []
     = Panics MakeSliceLenOutOfRange
         ([] ++ [Paxos.mkBlockchain [Paxos.NewBlock "Genesis Block" "" 0 clock0] []]).
Proof.
  apply (network_constructors_refuse_bad_sizes 140737488355328 [] [] [] clock0).
  right. vm_compute. reflexivity.
Defined.

Example networks_of_negative_size_panic :
  PBFT.NewPBFTNetwork (-1) clock0 []
  = Panics MakeSliceLenOutOfRange [PBFT.mkBlockchain [PBFT.NewBlock "Genesis Block" "" 0 clock0] []]
  /\ Raft.NewRaftNetwork (-1) clock0 []
     = Panics MakeSliceLenOutOfRange
         [Raft.mkBlockchain [Raft.NewBlock "Genesis Block" "" 0 clock0] [] None]
  /\ Paxos.NewPaxosNetwork (-1) clock0 []
     = Panics MakeSliceLenOutOfRange
         [Paxos.mkBlockchain [Paxos.NewBlock "Genesis Block" "" 0 clock0] []].
Proof. repeat split. Qed.

(** X23: [NewRaftNetwork] leaves the network's Leader nil, for every size it
    accepts.  So [bc.Leader.Lead(data)] made right after it, before any
    [RequestVote], panics on the nil pointer, and nothing is appended. *)
Theorem Raft_Lead_before_election_panics :
  forall (h0 : list Raft.Blockchain) (size : Z) (now data now' : string),
    0 <= size ->
    Raft.NodeSize * size <= maxAlloc ->
    (let* bc := Raft.NewRaftNetwork size now in Raft.LeaderLead bc data now') h0
    = Panics NilDereference
        (h0 ++ [Raft.mkBlockchain
                  [Raft.NewBlock "Genesis Block" "" 0 now]
                  (map (fun i => Raft.NewNode i (Some (length h0))) (seqZ 0 size))
                  None]).
Proof.
  intros h0 size now data now' Hsize Hmem.
  unfold bind at 1. rewrite Raft_NewRaftNetwork_returns by done.
  unfold Raft.LeaderLead. unfold bind at 1. by rewrite deref_alloc.
Qed.

Lemma Raft_Lead_before_election_panics_witness :
  (let* bc := Raft.NewRaftNetwork 5 clock0 in Raft.LeaderLead bc "First log entry" clock1) []
  = Panics NilDereference
      ([] ++ [Raft.mkBlockchain
                [Raft.NewBlock "Genesis Block" "" 0 clock0]
                (map (fun i => Raft.NewNode i (Some (length (@nil Raft.Blockchain))))
                     (seqZ 0 5))
                None]).
Proof.
  apply (Raft_Lead_before_election_panics [] 5 clock0 "First log entry" clock1).
  - lia.
  - vm_compute. discriminate.
Defined.
